(** * The EPUB package parser of the e-book reader plugin

    A shallow embedding of [src/epubParser.ts]: the path resolver, the
    package stage (metadata, manifest, spine), the navigation stage, cover
    resolution and content assembly, followed by the properties that the
    specification states about them.

    Conventions of the embedding.
    - A JavaScript string is the [string] of the bytes of its UTF-8
      encoding.  The code cuts and compares at ASCII characters only
      (['/'], ['.'], digits, the letters of ["cover"]), which no byte of a
      longer sequence equals; the white space that [parseInt] skips is
      recognised in its encoded form.
    - [null] and [undefined] are [None]; a value of type [T | null] is an
      [option T].  Truthiness of a string is non-emptiness.
    - A [Promise] that rejects and a [throw] are the left injection of a
      sum; the [await]s of [parseEpub] run one after the other, so the
      asynchronous function is a sequential computation in that monad.
    - The manifest is a JavaScript object created by [{}], whose
      enumeration order the code observes ([Object.values]); it is modelled
      by its own properties in insertion order, together with the prototype
      that an assignment to [__proto__] installs.  A read [manifest[k]]
      also finds the names inherited from that prototype and from
      [Object.prototype].
    - The output maps [content] and [resources] are objects created by
      [{}] that the code only writes under string keys; each is the finite
      map of its own properties.  [content] is never written under
      [__proto__], since no item that [Object.values] visits has that id.
      In [resources] an entry under [__proto__] (an image whose href or
      file name is that word) stands for the byte array that the
      assignment installs as prototype; from then on the object also
      answers through that array, which the finite map does not follow,
      and a statement that needs the plain object says so.
    - [console.error] calls are not modelled. *)

From stdpp Require Import gmap strings list fin_maps.
From Stdlib Require Import ZArith Ascii String Sorted Permutation.

Set Warnings "-register-all".

Open Scope string_scope.
Open Scope Z_scope.
Open Scope list_scope.

(** ** JavaScript strings *)

Module JSString.

(** [s.startsWith(p)] *)
Definition startsWith (s p : string) : bool := String.prefix p s.

(** [s.substring(n)] for [0 <= n]. *)
Fixpoint substringFrom (n : nat) (s : string) : string :=
  match n, s with
  | O, _ => s
  | S n', String _ s' => substringFrom n' s'
  | S _, EmptyString => EmptyString
  end.

(** [s.lastIndexOf(c)] for a one-character [c]: [-1] when [c] does not
    occur. *)
Fixpoint lastIndexOf (c : ascii) (s : string) : Z :=
  match s with
  | EmptyString => -1
  | String a s' =>
      let r := lastIndexOf c s' in
      if 0 <=? r then r + 1
      else if Ascii.eqb a c then 0 else -1
  end.

(** [s.substring(0, k)] *)
Definition substringTo (k : Z) (s : string) : string :=
  String.substring 0 (Z.to_nat k) s.

(** [s.split(c)] for a one-character separator: never the empty array,
    [''.split('/')] is [['']]. *)
Fixpoint split (sep : ascii) (s : string) : list string :=
  match s with
  | EmptyString => [EmptyString]
  | String c s' =>
      if Ascii.eqb c sep then EmptyString :: split sep s'
      else match split sep s' with
           | [] => [String c EmptyString]
           | h :: t => String c h :: t
           end
  end.

(** [parts.join('/')] *)
Definition join (sep : string) (parts : list string) : string :=
  String.concat sep parts.

(** [s.includes(sub)] *)
Fixpoint includes (s sub : string) : bool :=
  String.prefix sub s
  || match s with
     | EmptyString => false
     | String _ s' => includes s' sub
     end.

Definition lowerChar (c : ascii) : ascii :=
  let n := nat_of_ascii c in
  if (65 <=? n)%nat && (n <=? 90)%nat then ascii_of_nat (n + 32) else c.

(** [s.toLowerCase()]: the ASCII capitals are lowered.  Letters outside
    ASCII are left as they are; none of them lowers to a letter of
    ["cover"], the only text that the code searches in the result. *)
Fixpoint toLowerCase (s : string) : string :=
  match s with
  | EmptyString => EmptyString
  | String c s' => String (lowerChar c) (toLowerCase s')
  end.

(** Truthiness of a string: [!!s]. *)
Definition truthy (s : string) : bool := negb (String.eqb s "").

(** Truthiness of a [string | null]. *)
Definition truthyOpt (o : option string) : bool :=
  match o with
  | Some s => truthy s
  | None => false
  end.

(** [o || d] for a [string | null] on the left. *)
Definition orElse (o : option string) (d : string) : string :=
  match o with
  | Some s => if truthy s then s else d
  | None => d
  end.

End JSString.

(** ** JavaScript numbers, as far as [parseInt] and the comparator of
    [sort] use them

    [Num z] is the integer [z].  The engine holds a double: it agrees with
    the exact integer for every magnitude up to 2^53 and rounds above, so
    statements about the value of a numeral are made up to that bound. *)

Inductive Number : Type :=
| Num (z : Z)
| NaN.

Module JSNumber.

(** [a - b] *)
Definition sub (a b : Number) : Number :=
  match a, b with
  | Num x, Num y => Num (x - y)
  | _, _ => NaN
  end.

(** [v > 0], false for [NaN]. *)
Definition positive (v : Number) : bool :=
  match v with
  | Num z => 0 <? z
  | NaN => false
  end.

(** [a <= b], false as soon as one side is [NaN]. *)
Definition leb (a b : Number) : bool :=
  match a, b with
  | Num x, Num y => x <=? y
  | _, _ => false
  end.

Definition isNaN (v : Number) : bool :=
  match v with
  | NaN => true
  | Num _ => false
  end.

(** White space and line terminators of one byte: TAB, LF, VT, FF, CR and
    the space. *)
Definition isWhiteSpace (c : ascii) : bool :=
  let n := nat_of_ascii c in
  ((9 <=? n)%nat && (n <=? 13)%nat) || (n =? 32)%nat.

(** Of two bytes: U+00A0. *)
Definition isWhiteSpace2 (c1 c2 : ascii) : bool :=
  ((nat_of_ascii c1 =? 194) && (nat_of_ascii c2 =? 160))%nat.

(** Of three bytes: U+1680, U+2000 to U+200A, U+2028, U+2029, U+202F,
    U+205F, U+3000 and U+FEFF. *)
Definition isWhiteSpace3 (c1 c2 c3 : ascii) : bool :=
  let a := nat_of_ascii c1 in
  let b := nat_of_ascii c2 in
  let c := nat_of_ascii c3 in
  ((a =? 225) && (b =? 154) && (c =? 128)
   || (a =? 226) && (b =? 128)
      && ((128 <=? c) && (c <=? 138) || (c =? 168) || (c =? 169) || (c =? 175))
   || (a =? 226) && (b =? 129) && (c =? 159)
   || (a =? 227) && (b =? 128) && (c =? 128)
   || (a =? 239) && (b =? 187) && (c =? 191))%nat.

Fixpoint trimStart (s : string) : string :=
  match s with
  | String c1 s1 =>
      if isWhiteSpace c1 then trimStart s1
      else
        match s1 with
        | String c2 s2 =>
            if isWhiteSpace2 c1 c2 then trimStart s2
            else
              match s2 with
              | String c3 s3 =>
                  if isWhiteSpace3 c1 c2 c3 then trimStart s3 else s
              | EmptyString => s
              end
        | EmptyString => s
        end
  | EmptyString => EmptyString
  end.

Definition digitValue (c : ascii) : option Z :=
  let n := nat_of_ascii c in
  if (48 <=? n)%nat && (n <=? 57)%nat then Some (Z.of_nat (n - 48)) else None.

(** The value of the longest prefix of decimal digits, [None] when the
    string does not start with a digit. *)
Fixpoint digitsPrefix (acc : option Z) (s : string) : option Z :=
  match s with
  | String c s' =>
      match digitValue c with
      | Some d => digitsPrefix (Some (10 * default 0 acc + d)) s'
      | None => acc
      end
  | EmptyString => acc
  end.

(** [parseInt(s, 10)]: leading white space, an optional sign, then the
    longest run of digits; [NaN] when there is no digit.  The result is the
    exact integer, which is the engine's result up to 2^53. *)
Definition parseInt10 (s : string) : Number :=
  let t := trimStart s in
  let '(sign, body) :=
    match t with
    | String "-"%char r => (-1, r)
    | String "+"%char r => (1, r)
    | _ => (1, t)
    end in
  match digitsPrefix None body with
  | Some v => Num (sign * v)
  | None => NaN
  end.

End JSNumber.

(** ** [Array.prototype.sort]

    A stable insertion sort driven by the comparator: an element moves in
    front of the first one that compares greater than it, and a comparator
    result of [NaN] counts as [+0].  For a consistent comparator every
    conforming engine returns this list.  For an inconsistent one (which
    [a.order - b.order] is as soon as an order is [NaN]) ECMAScript leaves
    the order to the engine, and this list is one admissible outcome; a
    statement below about such an input covers the other arrangements as
    well. *)

Section ArraySort.
Context {A : Type} (comparefn : A -> A -> Number).

Fixpoint sortInsert (x : A) (sorted : list A) : list A :=
  match sorted with
  | [] => [x]
  | y :: rest =>
      if JSNumber.positive (comparefn y x) then x :: y :: rest
      else y :: sortInsert x rest
  end.

Definition arraySort (l : list A) : list A :=
  fold_left (fun acc x => sortInsert x acc) l [].
End ArraySort.

(** ** JavaScript objects used as string-keyed records

    An object created by [{}] and filled by assignments [o[k] = v] of
    objects: its own properties in insertion order.  The name [__proto__]
    is never an own property of such an object, because the assignment
    [o['__proto__'] = v] goes to the setter that [Object.prototype]
    provides and installs [v] as the prototype of [o].  The entry that the
    list holds under that name is this prototype: [o['__proto__']] reads it
    back, and no enumeration visits it.  [ownValues] is [Object.values]:
    array-index keys first, in ascending numeric order, then the other keys
    in insertion order. *)

Module JSObject.

Definition t (V : Type) : Type := list (string * V).

Definition empty {V : Type} : t V := [].

(** The value that the object itself holds under [k]: its own property
    [k] or, for [k = "__proto__"], the prototype that was installed.  What
    [o[k]] finds beyond that, along the prototype chain, depends on the
    values and is [readManifest] below. *)
Fixpoint get {V : Type} (o : t V) (k : string) : option V :=
  match o with
  | [] => None
  | (k', v) :: o' => if String.eqb k' k then Some v else get o' k
  end.

(** [o[k] = v] for an object [v]: an existing property keeps its place;
    under [__proto__] the prototype is replaced. *)
Fixpoint set {V : Type} (k : string) (v : V) (o : t V) : t V :=
  match o with
  | [] => [(k, v)]
  | (k', v') :: o' =>
      if String.eqb k' k then (k', v) :: o' else (k', v') :: set k v o'
  end.

Fixpoint allDigits (s : string) : bool :=
  match s with
  | EmptyString => true
  | String c s' =>
      match JSNumber.digitValue c with
      | Some _ => allDigits s'
      | None => false
      end
  end.

(** The array index that a key denotes, if it is a canonical numeric
    string below 2^32 - 1. *)
Definition arrayIndex (k : string) : option Z :=
  match k with
  | EmptyString => None
  | String c rest =>
      if allDigits k && (negb (Ascii.eqb c "0") || String.eqb rest "") then
        match JSNumber.digitsPrefix None k with
        | Some n => if n <? 4294967295 then Some n else None
        | None => None
        end
      else None
  end.

Definition indexCompare {V : Type} (a b : Z * V) : Number :=
  Num (fst a - fst b).

Definition indexed {V : Type} (o : t V) : list (Z * V) :=
  List.flat_map
    (fun kv => match arrayIndex (fst kv) with
               | Some n => [(n, snd kv)]
               | None => []
               end) o.

Definition named {V : Type} (o : t V) : list V :=
  List.flat_map
    (fun kv => match arrayIndex (fst kv) with
               | Some _ => []
               | None => [snd kv]
               end) o.

(** The own enumerable properties: everything but the prototype. *)
Definition enumerable {V : Type} (o : t V) : t V :=
  List.filter (fun kv => negb (String.eqb (fst kv) "__proto__")) o.

(** [Object.values(o)] *)
Definition ownValues {V : Type} (o : t V) : list V :=
  List.map snd (arraySort indexCompare (indexed (enumerable o)))
  ++ named (enumerable o).

End JSObject.

(** ** The path resolver *)

(** [basePathParts.pop()] *)
Definition pop (parts : list string) : list string := removelast parts.

(** The body of the loop of [resolveRelativePath]. *)
Definition resolveStep (basePathParts : list string) (part : string)
  : list string :=
  if String.eqb part ".." then
    if (0 <? List.length basePathParts)%nat then pop basePathParts
    else basePathParts
  else if negb (String.eqb part ".") && (0 <? String.length part)%nat then
    basePathParts ++ [part]
  else basePathParts.

Definition resolveRelativePath (relativePath basePath : string) : string :=
  if JSString.startsWith relativePath "/" then
    JSString.substringFrom 1 relativePath
  else if negb (JSString.truthy basePath) then relativePath
  else
    let parts := JSString.split "/" relativePath in
    let basePathParts :=
      List.filter (fun p => (0 <? String.length p)%nat)
                  (JSString.split "/" basePath) in
    let basePathParts :=
      if (0 <? List.length basePathParts)%nat then pop basePathParts
      else basePathParts in
    JSString.join "/" (fold_left resolveStep parts basePathParts).

(** The segments of a path, and what the specification calls a normalized
    archive-relative path: no leading slash, no [.] or [..] segment. *)
Definition segments (path : string) : list string := JSString.split "/" path.

Definition isDotSegment (s : string) : bool :=
  String.eqb s "." || String.eqb s "..".

Definition normalizedPath (path : string) : bool :=
  negb (JSString.startsWith path "/")
  && forallb (fun s => negb (isDotSegment s)) (segments path).

Definition hasDotDot (path : string) : bool :=
  existsb (fun s => String.eqb s "..") (segments path).

Definition hasDot (path : string) : bool :=
  existsb (fun s => String.eqb s ".") (segments path).


(** ** The document tree that [parseXml] returns

    [parseXml] asks [DOMParser] for an ['application/xml'] document: element
    names are matched case-sensitively and by local name.  An element
    carries its local name, its attributes in source order and its child
    nodes; [Text] is character data (text and CDATA sections), [Other] is a
    comment, a processing instruction or the document type. *)

Inductive Node : Type :=
| Element (localName : string) (attributes : list (string * string))
          (childNodes : list Node)
| Text (data : string)
| Other (data : string).

(** The children of the document node. *)
Definition Document : Type := list Node.

(** An element together with the local names of its ancestors, nearest
    first: what a selector with a descendant combinator looks at. *)
Definition Located : Type := (list string * Node)%type.

Module DOM.

Fixpoint lookupAttr (attrs : list (string * string)) (name : string)
  : option string :=
  match attrs with
  | [] => None
  | (k, v) :: rest => if String.eqb k name then Some v else lookupAttr rest name
  end.

(** [element.getAttribute(name)] *)
Definition getAttribute (n : Node) (name : string) : option string :=
  match n with
  | Element _ attrs _ => lookupAttr attrs name
  | _ => None
  end.

(** [node.textContent]: the character data of the descendants, in document
    order. *)
Fixpoint textContent (n : Node) : string :=
  match n with
  | Element _ _ cs => String.concat "" (List.map textContent cs)
  | Text d => d
  | Other _ => ""
  end.

(** The element [n] and the elements below it, in document order. *)
Fixpoint subtree (ancestors : list string) (n : Node) : list Located :=
  match n with
  | Element nm _ cs =>
      (ancestors, n) :: List.flat_map (subtree (nm :: ancestors)) cs
  | _ => []
  end.

(** The elements strictly below [e]. *)
Definition descendants (e : Located) : list Located :=
  match e with
  | (ancestors, Element nm _ cs) =>
      List.flat_map (subtree (nm :: ancestors)) cs
  | _ => []
  end.

(** All the elements of a document. *)
Definition elementsOf (doc : Document) : list Located :=
  List.flat_map (subtree []) doc.

(** The selectors that the parser uses. *)
Inductive Compound : Type :=
| TypeSel (name : string)                   (* [navPoint] *)
| AttrSel (name attr value : string).       (* [meta[name="cover"]] *)

Inductive Selector : Type :=
| Single (c : Compound)                     (* [spine] *)
| Under (ancestor : string) (c : Compound)  (* [manifest item] *)
| Either (c1 c2 : Compound).                (* [dc\:title, *|title] *)

Definition matchesCompound (c : Compound) (n : Node) : bool :=
  match c, n with
  | TypeSel name, Element nm _ _ => String.eqb nm name
  | AttrSel name attr value, Element nm attrs _ =>
      String.eqb nm name
      && match lookupAttr attrs attr with
         | Some v => String.eqb v value
         | None => false
         end
  | _, _ => false
  end.

(** A selector is matched against the whole document, whatever the element
    the query starts from: the ancestor of a descendant combinator may lie
    above that element. *)
Definition matches (s : Selector) (e : Located) : bool :=
  match s with
  | Single c => matchesCompound c (snd e)
  | Under ancestor c =>
      matchesCompound c (snd e)
      && existsb (fun a => String.eqb a ancestor) (fst e)
  | Either c1 c2 => matchesCompound c1 (snd e) || matchesCompound c2 (snd e)
  end.

(** [document.querySelectorAll(s)] and [document.querySelector(s)] *)
Definition docQuerySelectorAll (doc : Document) (s : Selector) : list Located :=
  List.filter (matches s) (elementsOf doc).

Definition docQuerySelector (doc : Document) (s : Selector) : option Located :=
  head (docQuerySelectorAll doc s).

(** [element.querySelectorAll(s)] and [element.querySelector(s)] *)
Definition querySelectorAll (e : Located) (s : Selector) : list Located :=
  List.filter (matches s) (descendants e).

Definition querySelector (e : Located) (s : Selector) : option Located :=
  head (querySelectorAll e s).

(** [element.querySelectorAll(':scope > name')]: the child elements of that
    name. *)
Definition scopeChildren (name : string) (children : list Node) : list Node :=
  List.filter (matchesCompound (TypeSel name)) children.

(** [element.setAttribute(name, value)] on the attribute list. *)
Fixpoint setAttr (name value : string) (attrs : list (string * string))
  : list (string * string) :=
  match attrs with
  | [] => [(name, value)]
  | (k, v) :: rest =>
      if String.eqb k name then (k, value) :: rest
      else (k, v) :: setAttr name value rest
  end.

End DOM.

(** ** The data model (the interfaces of [epubParser.ts]) *)

Module EpubMetadata.
Record t : Type := mk {
  title : option string;
  creator : option string;
  publisher : option string;
  language : option string;
  identifier : option string;
  description : option string;
  published : option string;
  modified : option string;
  rights : option string
}.

(** The object [{}]. *)
Definition none : t := mk None None None None None None None None None.
End EpubMetadata.

Module EpubNavPoint.
Inductive t : Type := mk {
  id : string;
  label : string;
  href : string;
  order : Number;
  children : list t
}.
End EpubNavPoint.

Module EpubSpine.
Record t : Type := mk {
  items : list string;
  toc : string
}.
End EpubSpine.

Module EpubManifestItem.
Record t : Type := mk {
  id : string;
  href : string;
  mediaType : string
}.
End EpubManifestItem.

(** [Record<string, EpubManifestItem>] *)
Abbreviation Manifest := (JSObject.t EpubManifestItem.t).

(** What a read [manifest[k]] can evaluate to: an item object, a field of
    the item that was installed as prototype, or something that
    [Object.prototype] provides (one of its functions, or
    [Object.prototype] itself under [__proto__]). *)
Inductive ManifestValue : Type :=
| ItemValue (item : EpubManifestItem.t)
| StringValue (text : string)
| BuiltinValue.

(** The function-valued properties of [Object.prototype]. *)
Definition objectPrototypeNames : list string :=
  ["constructor"; "__defineGetter__"; "__defineSetter__"; "hasOwnProperty";
   "__lookupGetter__"; "__lookupSetter__"; "isPrototypeOf";
   "propertyIsEnumerable"; "toString"; "valueOf"; "toLocaleString"].

(** What the prototype chain provides under [k]: the prototype itself
    under [__proto__], the fields of an installed prototype item, then the
    members of [Object.prototype]. *)
Definition inheritedValue (prototype : option EpubManifestItem.t) (k : string)
  : option ManifestValue :=
  if String.eqb k "__proto__" then
    Some match prototype with
         | Some item => ItemValue item
         | None => BuiltinValue
         end
  else
    match
      match prototype with
      | Some item =>
          if String.eqb k "id" then
            Some (StringValue (EpubManifestItem.id item))
          else if String.eqb k "href" then
            Some (StringValue (EpubManifestItem.href item))
          else if String.eqb k "mediaType" then
            Some (StringValue (EpubManifestItem.mediaType item))
          else None
      | None => None
      end
    with
    | Some v => Some v
    | None =>
        if existsb (String.eqb k) objectPrototypeNames then Some BuiltinValue
        else None
    end.

(** [manifest[k]] *)
Definition readManifest (manifest : Manifest) (k : string)
  : option ManifestValue :=
  match JSObject.get manifest k with
  | Some item => Some (ItemValue item)
  | None => inheritedValue (JSObject.get manifest "__proto__") k
  end.

(** Truthiness of such a value. *)
Definition valueTruthy (v : ManifestValue) : bool :=
  match v with
  | ItemValue _ => true
  | StringValue text => JSString.truthy text
  | BuiltinValue => true
  end.

(** [v.href] and [v.mediaType]: [undefined] on a string and on what
    [Object.prototype] provides. *)
Definition valueHref (v : ManifestValue) : option string :=
  match v with
  | ItemValue item => Some (EpubManifestItem.href item)
  | _ => None
  end.

Definition valueMediaType (v : ManifestValue) : option string :=
  match v with
  | ItemValue item => Some (EpubManifestItem.mediaType item)
  | _ => None
  end.

Abbreviation bytes := (list Byte.byte).

Module EpubContent.
Record t : Type := mk {
  metadata : EpubMetadata.t;
  spine : EpubSpine.t;
  manifest : Manifest;
  navPoints : list EpubNavPoint.t;
  coverPath : option string;
  coverData : option bytes;
  content : gmap string string;
  resources : gmap string bytes;
  basePath : string
}.
End EpubContent.

(** A loop [for (const x of l) { ... return r ... }] whose body either
    returns from the enclosing function or falls through to the next
    element. *)
Fixpoint forOf {A R : Type} (body : A -> option R) (l : list A) : option R :=
  match l with
  | [] => None
  | x :: rest =>
      match body x with
      | Some r => Some r
      | None => forOf body rest
      end
  end.

(** ** Package stage *)

(** [element?.textContent], kept when truthy. *)
Definition textOf (el : option Located) : option string :=
  match el with
  | Some e =>
      let text := DOM.textContent (snd e) in
      if JSString.truthy text then Some text else None
  | None => None
  end.

(** The selector [dc\\:name, *|name]. *)
Definition dcSelector (name : string) : DOM.Selector :=
  DOM.Either (DOM.TypeSel ("dc:" +:+ name)) (DOM.TypeSel name).

Definition parseMetadata (opfDoc : Document) : EpubMetadata.t :=
  match DOM.docQuerySelector opfDoc (DOM.Single (DOM.TypeSel "metadata")) with
  | None => EpubMetadata.none
  | Some metadataEl =>
      let dc name := textOf (DOM.querySelector metadataEl (dcSelector name)) in
      {| EpubMetadata.title := dc "title";
         EpubMetadata.creator := dc "creator";
         EpubMetadata.publisher := dc "publisher";
         EpubMetadata.language := dc "language";
         EpubMetadata.identifier := dc "identifier";
         EpubMetadata.description := dc "description";
         EpubMetadata.published := dc "date";
         EpubMetadata.modified :=
           textOf (DOM.querySelector metadataEl
                     (DOM.Single (DOM.AttrSel "meta" "property" "dcterms:modified")));
         EpubMetadata.rights := dc "rights" |}
  end.

(** The body of the [forEach] of [parseManifest]. *)
Definition manifestStep (basePath : string) (manifestItems : Manifest)
  (item : Located) : Manifest :=
  match DOM.getAttribute (snd item) "id",
        DOM.getAttribute (snd item) "href",
        DOM.getAttribute (snd item) "media-type" with
  | Some id, Some href, Some mediaType =>
      if JSString.truthy id && JSString.truthy href && JSString.truthy mediaType
      then
        let fullHref := resolveRelativePath href basePath in
        JSObject.set id (EpubManifestItem.mk id fullHref mediaType) manifestItems
      else manifestItems
  | _, _, _ => manifestItems
  end.

Definition parseManifest (opfDoc : Document) (basePath : string) : Manifest :=
  let items :=
    DOM.docQuerySelectorAll opfDoc (DOM.Under "manifest" (DOM.TypeSel "item")) in
  fold_left (manifestStep basePath) items JSObject.empty.

Definition parseSpine (opfDoc : Document) : EpubSpine.t :=
  match DOM.docQuerySelector opfDoc (DOM.Single (DOM.TypeSel "spine")) with
  | Some spineEl =>
      let toc := JSString.orElse (DOM.getAttribute (snd spineEl) "toc") "" in
      let itemRefs :=
        DOM.querySelectorAll spineEl (DOM.Single (DOM.TypeSel "itemref")) in
      let items :=
        List.flat_map
          (fun item =>
             match DOM.getAttribute (snd item) "idref" with
             | Some idref => if JSString.truthy idref then [idref] else []
             | None => []
             end) itemRefs in
      EpubSpine.mk items toc
  | None => EpubSpine.mk [] ""
  end.

(** ** Navigation stage *)

(** [parseNavPoint(element)], for an element that lies below the ancestors
    named by [ancestors]. *)
Fixpoint parseNavPoint (ancestors : list string) (element : Node)
  : option EpubNavPoint.t :=
  match element with
  | Element nm _ cs =>
      let here : Located := (ancestors, element) in
      let id := DOM.getAttribute element "id" in
      let playOrder := DOM.getAttribute element "playOrder" in
      let labelEl :=
        DOM.querySelector here (DOM.Under "navLabel" (DOM.TypeSel "text")) in
      let contentEl :=
        DOM.querySelector here (DOM.Single (DOM.TypeSel "content")) in
      match id, textOf labelEl, contentEl with
      | Some id, Some label, Some contentEl =>
          if JSString.truthy id then
            let href :=
              JSString.orElse (DOM.getAttribute (snd contentEl) "src") "" in
            let order :=
              match playOrder with
              | Some p => if JSString.truthy p then JSNumber.parseInt10 p
                          else Num 0
              | None => Num 0
              end in
            let children :=
              List.flat_map
                (fun el =>
                   if DOM.matchesCompound (DOM.TypeSel "navPoint") el then
                     match parseNavPoint (nm :: ancestors) el with
                     | Some childNavPoint => [childNavPoint]
                     | None => []
                     end
                   else []) cs in
            Some (EpubNavPoint.mk id label href order children)
          else None
      | _, _, _ => None
      end
  | _ => None
  end.

(** The comparator [(a, b) => a.order - b.order]. *)
Definition byOrder (a b : EpubNavPoint.t) : Number :=
  JSNumber.sub (EpubNavPoint.order a) (EpubNavPoint.order b).

Definition parseNavPoints (ncxDoc : Document) : list EpubNavPoint.t :=
  let navPoints :=
    match DOM.docQuerySelector ncxDoc (DOM.Single (DOM.TypeSel "navMap")) with
    | Some navMap =>
        let navPointElements :=
          DOM.querySelectorAll navMap (DOM.Single (DOM.TypeSel "navPoint")) in
        List.flat_map
          (fun el =>
             match parseNavPoint (fst el) (snd el) with
             | Some navPoint => [navPoint]
             | None => []
             end) navPointElements
    | None => []
    end in
  arraySort byOrder navPoints.

(** ** Cover resolution *)

Definition isImageType (mediaType : string) : bool :=
  JSString.startsWith mediaType "image/".

Definition findCoverPath (opfDoc : Document) (manifest : Manifest)
  : option string :=
  (* Strategy 1: a meta element with name="cover" *)
  match
    match DOM.docQuerySelector opfDoc
            (DOM.Single (DOM.AttrSel "meta" "name" "cover")) with
    | Some coverMeta =>
        match DOM.getAttribute (snd coverMeta) "content" with
        | Some coverId =>
            if JSString.truthy coverId then
              match readManifest manifest coverId with
              | Some found =>
                  if valueTruthy found then Some (valueHref found) else None
              | None => None
              end
            else None
        | None => None
        end
    | None => None
    end
  with
  | Some returned => returned
  | None =>
  (* Strategy 2: an item with id="cover" or id="cover-image".  Under these
     two names the object has an item or nothing, so [mediaType] is never
     read off [undefined]. *)
  match
    forOf (fun id =>
             match readManifest manifest id with
             | Some found =>
                 if valueTruthy found then
                   match valueMediaType found with
                   | Some mediaType =>
                       if isImageType mediaType then Some (valueHref found)
                       else None
                   | None => None
                   end
                 else None
             | None => None
             end) ["cover"; "cover-image"]
  with
  | Some returned => returned
  | None =>
  (* Strategy 3: an item with properties="cover-image" *)
  match
    forOf (fun item : Located =>
             match DOM.getAttribute (snd item) "id" with
             | Some id =>
                 if JSString.truthy id then
                   match readManifest manifest id with
                   | Some found =>
                       if valueTruthy found then Some (valueHref found)
                       else None
                   | None => None
                   end
                 else None
             | None => None
             end)
          (DOM.docQuerySelectorAll opfDoc
             (DOM.Under "manifest" (DOM.AttrSel "item" "properties" "cover-image")))
  with
  | Some returned => returned
  | None =>
  (* Strategy 4: any image with "cover" in the id or href *)
    forOf (fun item =>
             if isImageType (EpubManifestItem.mediaType item)
                && (JSString.includes
                      (JSString.toLowerCase (EpubManifestItem.id item)) "cover"
                    || JSString.includes
                         (JSString.toLowerCase (EpubManifestItem.href item)) "cover")
             then Some (EpubManifestItem.href item) else None)
          (JSObject.ownValues manifest)
  end end end.

(** ** Content assembly *)

(** The separators of a class list. *)
Definition isTokenSpace (c : ascii) : bool :=
  let n := nat_of_ascii c in
  (n =? 9)%nat || (n =? 10)%nat || (n =? 12)%nat || (n =? 13)%nat || (n =? 32)%nat.

Fixpoint tokensFrom (current rest : string) : list string :=
  match rest with
  | EmptyString => if JSString.truthy current then [current] else []
  | String c rest' =>
      if isTokenSpace c then
        (if JSString.truthy current then [current] else []) ++ tokensFrom "" rest'
      else tokensFrom (current +:+ String c "") rest'
  end.

Definition appendToken (set : list string) (token : string) : list string :=
  if existsb (String.eqb token) set then set else set ++ [token].

(** [element.classList.add(token)]: the class attribute becomes the
    serialization of its token set with [token] added. *)
Definition classListAdd (token : string) (attrs : list (string * string))
  : list (string * string) :=
  let current :=
    match DOM.lookupAttr attrs "class" with
    | Some v => fold_left appendToken (tokensFrom "" v) []
    | None => []
    end in
  DOM.setAttr "class" (JSString.join " " (appendToken current token)) attrs.

(** What [processHtml] does to the attributes of one element. *)
Definition rewriteAttributes (nm : string) (attrs : list (string * string))
  : list (string * string) :=
  if String.eqb nm "img" then
    match DOM.lookupAttr attrs "src" with
    | Some src =>
        if JSString.truthy src && negb (JSString.startsWith src "http") then
          classListAdd "epub-image" (DOM.setAttr "data-original-src" src attrs)
        else attrs
    | None => attrs
    end
  else if DOM.matchesCompound (DOM.AttrSel "link" "rel" "stylesheet")
            (Element nm attrs []) then
    match DOM.lookupAttr attrs "href" with
    | Some href =>
        if JSString.truthy href && negb (JSString.startsWith href "http") then
          DOM.setAttr "data-original-href" href attrs
        else attrs
    | None => attrs
    end
  else attrs.

Fixpoint rewriteNode (n : Node) : Node :=
  match n with
  | Element nm attrs cs =>
      Element nm (rewriteAttributes nm attrs) (List.map rewriteNode cs)
  | _ => n
  end.

(** A rejected promise or a thrown exception: [new Error(message)]. *)
Inductive JSError : Type :=
| Error (message : string).

Definition messageOf (e : JSError) : string :=
  match e with
  | Error m => m
  end.

(** An entry of the archive: what [async('string')] and
    [async('uint8array')] resolve to, or the error they reject with. *)
Record ZipObject : Type := mkZipObject {
  asyncString : JSError + string;
  asyncUint8Array : JSError + bytes
}.

(** The files of a loaded archive, by internal path. *)
Abbreviation Archive := (gmap string ZipObject).

(** [await p; k] *)
Definition await {A B : Type} (p : JSError + A) (k : A -> JSError + B)
  : JSError + B :=
  match p with
  | inl e => inl e
  | inr a => k a
  end.

Notation "'let*' x ':=' p 'in' k" := (await p (fun x => k))
  (at level 10, x pattern, p at level 100, k at level 200).

(** [await zip.file(path)?.async('string')] *)
Definition readString (zip : Archive) (path : string)
  : JSError + option string :=
  match zip !! path with
  | Some file =>
      match asyncString file with
      | inl e => inl e
      | inr s => inr (Some s)
      end
  | None => inr None
  end.

(** [await zip.file(path)?.async('uint8array')] *)
Definition readBytes (zip : Archive) (path : string)
  : JSError + option bytes :=
  match zip !! path with
  | Some file =>
      match asyncUint8Array file with
      | inl e => inl e
      | inr b => inr (Some b)
      end
  | None => inr None
  end.

(** [htmlPath.substring(0, htmlPath.lastIndexOf('/') + 1)] *)
Definition directoryOf (path : string) : string :=
  JSString.substringTo (JSString.lastIndexOf "/" path + 1) path.

(** The body of the first loop of [parseEpub]: one image resource. *)
Definition resourceStep (zip : Archive) (resources : gmap string bytes)
  (item : EpubManifestItem.t) : gmap string bytes :=
  if JSString.startsWith (EpubManifestItem.mediaType item) "image/" then
    match readBytes zip (EpubManifestItem.href item) with
    | inr (Some resource) =>
        let resources := <[EpubManifestItem.href item := resource]> resources in
        let fileName :=
          JSString.orElse
            (last (JSString.split "/" (EpubManifestItem.href item))) "" in
        if JSString.truthy fileName then <[fileName := resource]> resources
        else resources
    | inr None => resources
    | inl _ => resources          (* caught and logged *)
    end
  else resources.

Section Parser.

(** The collaborators: [JSZip.loadAsync], [DOMParser.parseFromString] with
    ['application/xml'], and [XMLSerializer.serializeToString]. *)
Variable loadAsync : bytes -> JSError + Archive.
Variable parseXml : string -> Document.
Variable serializeToString : Document -> string.

Definition processHtml (html htmlPath basePath : string) (manifest : Manifest)
  : string :=
  let htmlDir := directoryOf htmlPath in
  let doc := parseXml html in
  serializeToString (List.map rewriteNode doc).

(** The body of the second loop of [parseEpub]: one markup document. *)
Definition contentStep (zip : Archive) (basePath : string) (manifest : Manifest)
  (content : gmap string string) (item : EpubManifestItem.t)
  : gmap string string :=
  if String.eqb (EpubManifestItem.mediaType item) "application/xhtml+xml"
     || String.eqb (EpubManifestItem.mediaType item) "text/html" then
    match readString zip (EpubManifestItem.href item) with
    | inr (Some htmlContent) =>
        if JSString.truthy htmlContent then
          <[EpubManifestItem.id item :=
              processHtml htmlContent (EpubManifestItem.href item) basePath manifest]>
            content
        else content
    | inr None => content
    | inl e =>
        <[EpubManifestItem.id item :=
            "<p>Error loading content: " +:+ messageOf e +:+ "</p>"]> content
    end
  else content.

Definition parseEpub (data : bytes) : JSError + EpubContent.t :=
  let* zip := loadAsync data in
  let* containerXml := readString zip "META-INF/container.xml" in
  if negb (JSString.truthyOpt containerXml) then
    inl (Error "Invalid EPUB: Missing container.xml")
  else
  let containerDoc := parseXml (JSString.orElse containerXml "") in
  let rootfilePath :=
    match DOM.docQuerySelector containerDoc (DOM.Single (DOM.TypeSel "rootfile")) with
    | Some rootfile => DOM.getAttribute (snd rootfile) "full-path"
    | None => None
    end in
  if negb (JSString.truthyOpt rootfilePath) then
    inl (Error "Invalid EPUB: Unable to find rootfile path")
  else
  let rootfilePath := JSString.orElse rootfilePath "" in
  let* opfContent := readString zip rootfilePath in
  if negb (JSString.truthyOpt opfContent) then
    inl (Error ("Invalid EPUB: Missing OPF file at " +:+ rootfilePath))
  else
  let opfDoc := parseXml (JSString.orElse opfContent "") in
  let basePath := directoryOf rootfilePath in
  let metadata := parseMetadata opfDoc in
  let manifest := parseManifest opfDoc basePath in
  let spine := parseSpine opfDoc in
  let tocHref :=
    match readManifest manifest (EpubSpine.toc spine) with
    | Some found => valueHref found
    | None => None
    end in
  let* navPoints :=
    if JSString.truthyOpt tocHref then
      let* tocContent := readString zip (JSString.orElse tocHref "") in
      if JSString.truthyOpt tocContent then
        inr (parseNavPoints (parseXml (JSString.orElse tocContent "")))
      else inr []
    else inr [] in
  let coverPath := findCoverPath opfDoc manifest in
  let* coverData :=
    if JSString.truthyOpt coverPath then
      readBytes zip (JSString.orElse coverPath "")
    else inr None in
  let resources :=
    fold_left (resourceStep zip) (JSObject.ownValues manifest) ∅ in
  let content :=
    fold_left (contentStep zip basePath manifest) (JSObject.ownValues manifest) ∅ in
  inr {| EpubContent.metadata := metadata;
         EpubContent.spine := spine;
         EpubContent.manifest := manifest;
         EpubContent.navPoints := navPoints;
         EpubContent.coverPath := coverPath;
         EpubContent.coverData := coverData;
         EpubContent.content := content;
         EpubContent.resources := resources;
         EpubContent.basePath := basePath |}.

End Parser.

(** ** Auxiliary notions used by the statements *)

(** Whether the character [c] occurs in [s]. *)
Fixpoint occursIn (c : ascii) (s : string) : bool :=
  match s with
  | EmptyString => false
  | String a s' => Ascii.eqb a c || occursIn c s'
  end.

(** A base directory none of whose segments is [.] or [..]. *)
Definition cleanBase (basePath : string) : bool :=
  forallb (fun s => negb (isDotSegment s)) (segments basePath).

(** What the resolver keeps of the segments of a reference. *)
Definition keptSegment (part : string) : bool :=
  negb (String.eqb part ".") && (0 <? String.length part)%nat.

(** A segment that may appear in a normalized path. *)
Definition plainSegment (s : string) : bool :=
  JSString.truthy s && negb (occursIn "/" s) && negb (isDotSegment s).

(** The [item] elements that [parseManifest] visits. *)
Definition manifestItemElements (opfDoc : Document) : list Located :=
  DOM.docQuerySelectorAll opfDoc (DOM.Under "manifest" (DOM.TypeSel "item")).

(** A package document at the archive root whose only item is written
    with a leading [./]. *)
Definition opfDotHref : Document :=
  [Element "package" []
     [Element "manifest" []
        [Element "item"
           [("id", "ch1"); ("href", "./ch1.xhtml");
            ("media-type", "application/xhtml+xml")] []];
      Element "spine" [] [Element "itemref" [("idref", "ch1")] []]]].

(** Adjacent points are in ascending order: [a.order <= b.order], which no
    pair with a [NaN] satisfies. *)
Fixpoint ascendingByOrder (l : list EpubNavPoint.t) : bool :=
  match l with
  | a :: (b :: _) as rest =>
      JSNumber.leb (EpubNavPoint.order a) (EpubNavPoint.order b)
      && ascendingByOrder rest
  | _ => true
  end.

(** [a.order <= b.order] as a relation. *)
Definition orderLe (a b : EpubNavPoint.t) : Prop :=
  JSNumber.leb (EpubNavPoint.order a) (EpubNavPoint.order b) = true.

(** The order of a point is a number. *)
Definition numericOrder (p : EpubNavPoint.t) : bool :=
  negb (JSNumber.isNaN (EpubNavPoint.order p)).

(** A [navPoint] element with a label, a content element and the given
    nested elements. *)
Definition navPointElement (id playOrder : string) (nested : list Node) : Node :=
  Element "navPoint" [("id", id); ("playOrder", playOrder)]
    (Element "navLabel" [] [Element "text" [] [Text id]]
     :: Element "content" [("src", id +:+ ".xhtml")] []
     :: nested).

(** A navigation document with one chapter that has one section. *)
Definition ncxNested : Document :=
  [Element "ncx" []
     [Element "navMap" []
        [navPointElement "chapter" "1" [navPointElement "section" "2" []]]]].

(** A navigation document whose first point has a [playOrder] that is not
    a numeral. *)
Definition ncxNonNumeric : Document :=
  [Element "ncx" []
     [Element "navMap" []
        [navPointElement "intro" "x" []; navPointElement "chapter" "1" []]]].

(** The source order 3, 1, 2 of the specification. *)
Definition ncxShuffled : Document :=
  [Element "ncx" []
     [Element "navMap" []
        [navPointElement "third" "3" [navPointElement "b" "9" [];
                                      navPointElement "a" "8" []];
         navPointElement "first" "1" [];
         navPointElement "second" "2" []]]].

(** A numeral: a non-empty string of decimal digits, and the integer it
    denotes. *)
Definition isNumeral (s : string) : bool :=
  JSString.truthy s && JSObject.allDigits s.

Fixpoint numeralFrom (acc : Z) (s : string) : Z :=
  match s with
  | EmptyString => acc
  | String c s' => numeralFrom (10 * acc + (Z.of_nat (nat_of_ascii c) - 48)) s'
  end.

Definition numeralValue (s : string) : Z := numeralFrom 0 s.

(** A package document whose [meta] element names, as cover, an id that
    no item has but that [Object.prototype] provides, and which has an
    image item with the literal id [cover]. *)
Definition opfInheritedCoverId : Document :=
  [Element "package" []
     [Element "metadata" []
        [Element "meta" [("name", "cover"); ("content", "constructor")] []];
      Element "manifest" []
        [Element "item"
           [("id", "cover"); ("href", "images/cover.jpg");
            ("media-type", "image/jpeg")] []]]].

(** The same document with a [meta] element that names an id which
    nothing provides. *)
Definition opfAbsentCoverId : Document :=
  [Element "package" []
     [Element "metadata" []
        [Element "meta" [("name", "cover"); ("content", "frontispiece")] []];
      Element "manifest" []
        [Element "item"
           [("id", "cover"); ("href", "images/cover.jpg");
            ("media-type", "image/jpeg")] []]]].

(** The package document of the specification's cover example: no
    [meta] element, an image item [img1] marked [properties="cover-image"]. *)
Definition opfCoverProperty : Document :=
  [Element "package" []
     [Element "metadata" [] [Element "title" [] [Text "A book"]];
      Element "manifest" []
        [Element "item"
           [("id", "ch1"); ("href", "text/ch1.xhtml");
            ("media-type", "application/xhtml+xml")] [];
         Element "item"
           [("id", "img1"); ("href", "images/front.jpg");
            ("media-type", "image/jpeg"); ("properties", "cover-image")] []];
      Element "spine" [] [Element "itemref" [("idref", "ch1")] []]]].

(** A media type that denotes markup. *)
Definition isMarkupType (mediaType : string) : bool :=
  String.eqb mediaType "application/xhtml+xml" || String.eqb mediaType "text/html".

(** The invariant of the manifest object: one property per id, holding an
    item of that id. *)
Definition wellKeyed (manifest : Manifest) : Prop :=
  List.NoDup (List.map fst manifest)
  /\ Forall (fun kv => EpubManifestItem.id (snd kv) = fst kv) manifest.

(** The [rootfile] path that the container stage reads. *)
Definition rootfileOf (containerDoc : Document) : option string :=
  match DOM.docQuerySelector containerDoc (DOM.Single (DOM.TypeSel "rootfile")) with
  | Some rootfile => DOM.getAttribute (snd rootfile) "full-path"
  | None => None
  end.

(** A small archive and its collaborators: the package document sits at
    the archive root, the chapter [ch1] cannot be decompressed and the
    chapter [ch2] is not in the archive. *)
Definition opfTwoChapters : Document :=
  [Element "package" []
     [Element "manifest" []
        [Element "item"
           [("id", "ch1"); ("href", "ch1.xhtml");
            ("media-type", "application/xhtml+xml")] [];
         Element "item"
           [("id", "ch2"); ("href", "ch2.xhtml");
            ("media-type", "application/xhtml+xml")] []];
      Element "spine" [] [Element "itemref" [("idref", "ch1")] []]]].

Definition sampleArchive : Archive :=
  <["META-INF/container.xml" := mkZipObject (inr "container") (inr [])]>
    (<["content.opf" := mkZipObject (inr "package") (inr [])]>
       (<["ch1.xhtml" :=
            mkZipObject (inl (Error "Corrupted zip")) (inl (Error "Corrupted zip"))]>
          ∅)).

Definition sampleLoadAsync (data : bytes) : JSError + Archive :=
  inr sampleArchive.

Definition sampleParseXml (text : string) : Document :=
  if String.eqb text "container" then
    [Element "container" []
       [Element "rootfiles" []
          [Element "rootfile" [("full-path", "content.opf")] []]]]
  else if String.eqb text "package" then opfTwoChapters
  else [].

Definition sampleSerialize (doc : Document) : string := "<html/>".

(** An archive without a container descriptor. *)
Definition emptyLoadAsync (data : bytes) : JSError + Archive := inr ∅.

(** What the second loop of [parseEpub] leaves under the id of a markup
    item: the rewritten markup, the placeholder, or nothing. *)
Definition markupEntry (parseXml : string -> Document)
  (serializeToString : Document -> string) (zip : Archive) (basePath : string)
  (manifest : Manifest) (item : EpubManifestItem.t) : option string :=
  match readString zip (EpubManifestItem.href item) with
  | inr (Some htmlContent) =>
      if JSString.truthy htmlContent then
        Some (processHtml parseXml serializeToString htmlContent
                (EpubManifestItem.href item) basePath manifest)
      else None
  | inr None => None
  | inl e => Some ("<p>Error loading content: " +:+ messageOf e +:+ "</p>")
  end.

(** A read that the promise does not reject. *)
Definition fulfilled {A : Type} (p : JSError + A) : Prop :=
  exists a, p = inr a.

(** ** Further notions: the rest of the parser and its callers *)

(** A segment that the resolver may hold on its stack: not empty, no
    slash. *)
Definition stackSegment (s : string) : bool :=
  JSString.truthy s && negb (occursIn "/" s).

(** The non-empty segments of a base directory. *)
Definition baseSegments (basePath : string) : list string :=
  List.filter (fun p => (0 <? String.length p)%nat) (JSString.split "/" basePath).

(** The reference [../../ ... /name] with [k] leading [..] segments. *)
Definition climb (k : nat) (name : string) : string :=
  JSString.join "/" (repeat ".." k ++ [name]).

(** [path.split('/').pop() || ''], the bare file name of a path. *)
Definition fileNameOf (path : string) : string :=
  JSString.orElse (last (JSString.split "/" path)) "".

(** The manifest item that an [item] element declares: none unless the
    element carries a non-empty [id], [href] and [media-type]. *)
Definition declaredItem (basePath : string) (el : Located)
  : option EpubManifestItem.t :=
  match DOM.getAttribute (snd el) "id",
        DOM.getAttribute (snd el) "href",
        DOM.getAttribute (snd el) "media-type" with
  | Some id, Some href, Some mediaType =>
      if JSString.truthy id && JSString.truthy href && JSString.truthy mediaType
      then Some (EpubManifestItem.mk id (resolveRelativePath href basePath)
                   mediaType)
      else None
  | _, _, _ => None
  end.

(** The items that the elements of a package document declare under the
    id [id], in document order. *)
Definition declaredUnder (basePath : string) (opfDoc : Document) (id : string)
  : list EpubManifestItem.t :=
  List.filter (fun item => String.eqb (EpubManifestItem.id item) id)
    (omap (declaredItem basePath) (manifestItemElements opfDoc)).

(** A field of the metadata is absent or a non-empty string. *)
Definition presentField (field : option string) : bool :=
  match field with
  | Some text => JSString.truthy text
  | None => true
  end.

(** The nine fields of the metadata. *)
Definition metadataFields (m : EpubMetadata.t) : list (option string) :=
  [EpubMetadata.title m; EpubMetadata.creator m; EpubMetadata.publisher m;
   EpubMetadata.language m; EpubMetadata.identifier m;
   EpubMetadata.description m; EpubMetadata.published m;
   EpubMetadata.modified m; EpubMetadata.rights m].

(** A point and all the points below it have a non-empty id and a
    non-empty label. *)
Fixpoint wellLabelled (p : EpubNavPoint.t) : bool :=
  match p with
  | EpubNavPoint.mk id label _ _ children =>
      JSString.truthy id && JSString.truthy label
      && forallb wellLabelled children
  end.

(** The array [navPoints] of [parseNavPoints] before it is sorted: the
    points in document order. *)
Definition collectedNavPoints (ncxDoc : Document) : list EpubNavPoint.t :=
  match DOM.docQuerySelector ncxDoc (DOM.Single (DOM.TypeSel "navMap")) with
  | Some navMap =>
      List.flat_map
        (fun el =>
           match parseNavPoint (fst el) (snd el) with
           | Some navPoint => [navPoint]
           | None => []
           end)
        (DOM.querySelectorAll navMap (DOM.Single (DOM.TypeSel "navPoint")))
  | None => []
  end.

(** The order of a point is the integer [v]. *)
Definition orderIs (v : Z) (p : EpubNavPoint.t) : bool :=
  match EpubNavPoint.order p with
  | Num z => z =? v
  | NaN => false
  end.

(** The tree with every attribute erased: the element names, the nesting
    and the character data. *)
Fixpoint eraseAttributes (n : Node) : Node :=
  match n with
  | Element nm _ cs => Element nm [] (List.map eraseAttributes cs)
  | _ => n
  end.

(** The token set of a class attribute value, as [classList] reads it. *)
Definition classTokens (value : string) : list string :=
  fold_left appendToken (tokensFrom "" value) [].

(** The token set of the class attribute of an attribute list: empty
    without the attribute. *)
Definition classTokensOf (attrs : list (string * string)) : list string :=
  match DOM.lookupAttr attrs "class" with
  | Some value => classTokens value
  | None => []
  end.

(** No separator of a class list occurs in the string. *)
Fixpoint spaceFree (s : string) : bool :=
  match s with
  | EmptyString => true
  | String c s' => negb (isTokenSpace c) && spaceFree s'
  end.

(** A class token: not empty, no separator. *)
Definition goodToken (s : string) : bool := JSString.truthy s && spaceFree s.

(** The attributes that [processHtml] writes. *)
Definition writtenAttribute (name : string) : bool :=
  String.eqb name "class" || String.eqb name "data-original-src"
  || String.eqb name "data-original-href".

(** [s.endsWith(suffix)] *)
Fixpoint endsWith (s suffix : string) : bool :=
  String.eqb s suffix
  || match s with
     | EmptyString => false
     | String _ s' => endsWith s' suffix
     end.

(** [Object.entries(o)]: the properties in the order of [Object.values]. *)
Definition ownEntries {V : Type} (o : JSObject.t V) : list (string * V) :=
  List.map snd
    (arraySort JSObject.indexCompare
       (List.flat_map
          (fun kv => match JSObject.arrayIndex (fst kv) with
                     | Some n => [(n, kv)]
                     | None => []
                     end) (JSObject.enumerable o)))
  ++ List.filter
       (fun kv => match JSObject.arrayIndex (fst kv) with
                  | Some _ => false
                  | None => true
                  end) (JSObject.enumerable o).

(** [findManifestItemForHref] of the reader view: the id of the first
    manifest entry whose href ends with the given one.  The run-time type
    tests of the source hold for every manifest item. *)
Definition findManifestItemForHref (epubContent : option EpubContent.t)
  (href : string) : option string :=
  match epubContent with
  | None => None
  | Some content =>
      forOf (fun entry : string * EpubManifestItem.t =>
               if endsWith (EpubManifestItem.href (snd entry)) href
               then Some (fst entry) else None)
            (ownEntries (EpubContent.manifest content))
  end.

(** [getImageMimeType] of the reader view. *)
Definition getImageMimeType (path : string) : string :=
  let extension :=
    JSString.toLowerCase <$> last (JSString.split "." path) in
  match extension with
  | Some ext =>
      if String.eqb ext "jpg" || String.eqb ext "jpeg" then "image/jpeg"
      else if String.eqb ext "png" then "image/png"
      else if String.eqb ext "gif" then "image/gif"
      else if String.eqb ext "svg" then "image/svg+xml"
      else if String.eqb ext "webp" then "image/webp"
      else "image/jpeg"
  | None => "image/jpeg"
  end.

(** An archive with a cover image and one chapter, the package document
    at the archive root. *)
Definition imageArchive : Archive :=
  <["META-INF/container.xml" := mkZipObject (inr "container") (inr [])]>
    (<["content.opf" := mkZipObject (inr "package") (inr [])]>
       (<["images/front.jpg" :=
            mkZipObject (inr "") (inr [Byte.xff; Byte.xd8])]>
          (<["text/ch1.xhtml" := mkZipObject (inr "<html/>") (inr [])]> ∅))).

Definition imageLoadAsync (data : bytes) : JSError + Archive :=
  inr imageArchive.

Definition imageParseXml (text : string) : Document :=
  if String.eqb text "container" then
    [Element "container" []
       [Element "rootfiles" []
          [Element "rootfile" [("full-path", "content.opf")] []]]]
  else if String.eqb text "package" then opfCoverProperty
  else [].

(** A markup reader that finds no element in any text. *)
Definition blankParseXml (text : string) : Document := [].

(** An archive that holds the container descriptor only. *)
Definition containerOnlyLoadAsync (data : bytes) : JSError + Archive :=
  inr (<["META-INF/container.xml" := mkZipObject (inr "container") (inr [])]> ∅).

(** ** Properties of the string primitives *)

Lemma split_not_nil sep s : JSString.split sep s <> [].
Proof.
  destruct s as [|c s]; simpl; [discriminate|].
  destruct (Ascii.eqb c sep); [discriminate|].
  destruct (JSString.split sep s); discriminate.
Qed.

Lemma split_without_separator sep s :
  occursIn sep s = false -> JSString.split sep s = [s].
Proof.
  induction s as [|c s IH]; simpl; [reflexivity|].
  intros H. apply orb_false_iff in H as [Hc Hs].
  rewrite Hc, (IH Hs). reflexivity.
Qed.

Lemma split_append sep x rest :
  occursIn sep x = false ->
  JSString.split sep (x +:+ String sep rest) = x :: JSString.split sep rest.
Proof.
  induction x as [|c x IH]; intros H.
  - change ("" +:+ String sep rest) with (String sep rest).
    simpl. rewrite Ascii.eqb_refl. reflexivity.
  - change (String c x +:+ String sep rest)
      with (String c (x +:+ String sep rest)).
    simpl in H. apply orb_false_iff in H as [Hc Hx].
    simpl. rewrite Hc, (IH Hx). reflexivity.
Qed.

Lemma split_segments_plain sep s :
  Forall (fun seg => occursIn sep seg = false) (JSString.split sep s).
Proof.
  induction s as [|c s IH]; simpl.
  - repeat constructor.
  - destruct (Ascii.eqb c sep) eqn:Hc.
    + constructor; [reflexivity|exact IH].
    + destruct (JSString.split sep s) as [|h t]; inversion IH; subst.
      * repeat constructor; simpl; rewrite Hc; reflexivity.
      * constructor; [simpl; rewrite Hc; assumption|assumption].
Qed.

Lemma join_cons sep x y l :
  JSString.join sep (x :: y :: l) = x +:+ sep +:+ JSString.join sep (y :: l).
Proof. reflexivity. Qed.

Lemma startsWith_char a c s :
  JSString.startsWith (String c s) (String a "") = Ascii.eqb a c.
Proof.
  unfold JSString.startsWith. cbn [String.prefix].
  destruct (ascii_dec a c) as [->|Hne].
  - rewrite Ascii.eqb_refl. destruct s; reflexivity.
  - symmetry. apply Ascii.eqb_neq. exact Hne.
Qed.

Lemma startsWith_append_plain x rest :
  plainSegment x = true -> JSString.startsWith (x +:+ rest) "/" = false.
Proof.
  unfold plainSegment.
  destruct x as [|c x]; [discriminate|].
  intros H. change (String c x +:+ rest) with (String c (x +:+ rest)).
  rewrite startsWith_char.
  apply andb_true_iff in H as [H _]. apply andb_true_iff in H as [_ H].
  apply negb_true_iff in H. cbn [occursIn] in H.
  apply orb_false_iff in H as [H _].
  rewrite Ascii.eqb_sym. exact H.
Qed.

Lemma append_cons c (x rest : string) :
  String c x +:+ rest = String c (x +:+ rest).
Proof. reflexivity. Qed.

Lemma append_empty_r (s : string) : s +:+ "" = s.
Proof.
  induction s as [|c s IH]; [reflexivity|].
  rewrite append_cons, IH. reflexivity.
Qed.

(** The path that joins plain segments is normalized. *)
Lemma join_plain_normalized parts :
  Forall (fun s => plainSegment s = true) parts ->
  normalizedPath (JSString.join "/" parts) = true.
Proof.
  intros Hall. unfold normalizedPath. apply andb_true_iff. split.
  - destruct Hall as [|x l Hx Hl]; [reflexivity|].
    destruct l as [|y l].
    + simpl. rewrite <- (append_empty_r x).
      rewrite (startsWith_append_plain x "" Hx). reflexivity.
    + rewrite join_cons, (startsWith_append_plain _ _ Hx). reflexivity.
  - unfold segments. induction Hall as [|x l Hx Hl IH]; [reflexivity|].
    pose proof Hx as Hx'. unfold plainSegment in Hx'.
    apply andb_true_iff in Hx' as [Hx' Hdot].
    apply andb_true_iff in Hx' as [_ Hsl].
    apply negb_true_iff in Hsl.
    destruct l as [|y l].
    + simpl. rewrite (split_without_separator _ _ Hsl). simpl.
      rewrite Hdot. reflexivity.
    + rewrite join_cons. change ("/" +:+ ?r) with (String "/"%char r).
      rewrite (split_append _ _ _ Hsl). simpl. rewrite Hdot. exact IH.
Qed.

(** ** Properties of JavaScript objects *)

Lemma get_set {V : Type} (o : JSObject.t V) k v k' :
  JSObject.get (JSObject.set k v o) k'
  = if String.eqb k k' then Some v else JSObject.get o k'.
Proof.
  induction o as [|[k0 v0] o IH]; simpl.
  - reflexivity.
  - destruct (String.eqb_spec k0 k) as [->|Hne]; simpl.
    + destruct (String.eqb k k'); reflexivity.
    + rewrite IH. destruct (String.eqb_spec k0 k') as [->|Hne'].
      * destruct (String.eqb_spec k k') as [->|_]; congruence.
      * reflexivity.
Qed.

(** ** The path resolver *)

Lemma existsb_false_Forall {A : Type} (p : A -> bool) (l : list A) :
  existsb p l = false -> Forall (fun x => p x = false) l.
Proof.
  induction l as [|x l IH]; simpl; intros H; constructor.
  - apply orb_false_iff in H. tauto.
  - apply IH. apply orb_false_iff in H. tauto.
Qed.

Lemma Forall_removelast {A : Type} (P : A -> Prop) (l : list A) :
  Forall P l -> Forall P (removelast l).
Proof.
  induction 1 as [|x l Hx Hl IH]; simpl; [constructor|].
  destruct l; [constructor|]. constructor; assumption.
Qed.

(** Without a [..] segment the loop only pushes: the stack grows by the
    segments of the reference that are neither empty nor [.]. *)
Lemma fold_resolveStep_pushes parts stack :
  Forall (fun p => String.eqb p ".." = false) parts ->
  fold_left resolveStep parts stack = stack ++ List.filter keptSegment parts.
Proof.
  intros Hall. revert stack.
  induction Hall as [|p parts Hp _ IH]; intros stack; simpl.
  - rewrite app_nil_r. reflexivity.
  - rewrite IH. unfold resolveStep at 1. rewrite Hp.
    unfold keptSegment at 2.
    destruct (negb (String.eqb p ".") && (0 <? String.length p)%nat).
    + rewrite <- app_assoc. reflexivity.
    + reflexivity.
Qed.

Lemma base_segments_plain d :
  cleanBase d = true ->
  Forall (fun s => plainSegment s = true)
    (List.filter (fun p => (0 <? String.length p)%nat) (JSString.split "/" d)).
Proof.
  unfold cleanBase, segments. intros Hclean.
  pose proof (split_segments_plain "/" d) as Hsep.
  induction Hsep as [|s l Hs _ IH]; simpl in *; [constructor|].
  apply andb_true_iff in Hclean as [Hdot Hrest].
  destruct s as [|c s]; simpl; [exact (IH Hrest)|].
  constructor; [|exact (IH Hrest)].
  unfold plainSegment. rewrite Hs, Hdot. reflexivity.
Qed.

Lemma reference_segments_plain r :
  hasDotDot r = false ->
  Forall (fun s => plainSegment s = true)
    (List.filter keptSegment (JSString.split "/" r)).
Proof.
  unfold hasDotDot, segments. intros Hdd.
  apply existsb_false_Forall in Hdd.
  pose proof (split_segments_plain "/" r) as Hsep.
  induction Hsep as [|s l Hs _ IH]; simpl in *; [constructor|].
  inversion Hdd as [|? ? Hdd1 Hdd2]; subst.
  destruct (keptSegment s) eqn:Hk; [|exact (IH Hdd2)].
  constructor; [|exact (IH Hdd2)].
  unfold keptSegment in Hk. apply andb_true_iff in Hk as [Hdot Hlen].
  unfold plainSegment, isDotSegment. rewrite Hs, Hdd1.
  apply negb_true_iff in Hdot. rewrite Hdot.
  destruct s; [discriminate|reflexivity].
Qed.

(** The resolver on a relative reference without [..], against a clean,
    non-empty base. *)
Lemma resolve_relative_normalized r d :
  hasDotDot r = false ->
  JSString.startsWith r "/" = false ->
  JSString.truthy d = true ->
  cleanBase d = true ->
  normalizedPath (resolveRelativePath r d) = true.
Proof.
  intros Hdd Hrel Hbase Hclean. unfold resolveRelativePath.
  rewrite Hrel, Hbase. cbn [negb].
  rewrite fold_resolveStep_pushes
    by (apply existsb_false_Forall; exact Hdd).
  apply join_plain_normalized, Forall_app. split.
  - pose proof (base_segments_plain d Hclean) as Hb.
    destruct (0 <? List.length _)%nat; [apply Forall_removelast|]; exact Hb.
  - apply reference_segments_plain. exact Hdd.
Qed.

(** Every entry of the manifest comes from an [item] element, and its
    [href] is the resolution of that element's [href] attribute. *)
Lemma parseManifest_entry items d acc id it :
  JSObject.get (fold_left (manifestStep d) items acc) id = Some it ->
  JSObject.get acc id = Some it
  \/ exists el h, In el items
       /\ DOM.getAttribute (snd el) "href" = Some h
       /\ EpubManifestItem.href it = resolveRelativePath h d.
Proof.
  revert acc. induction items as [|el items IH]; intros acc; simpl.
  - tauto.
  - intros H. apply IH in H as [H | (el' & h & Hin & Hh & Heq)].
    + unfold manifestStep in H.
      destruct (DOM.getAttribute (snd el) "id") as [i|] eqn:Hi; [|tauto].
      destruct (DOM.getAttribute (snd el) "href") as [h|] eqn:Hh; [|tauto].
      destruct (DOM.getAttribute (snd el) "media-type") as [m|]; [|tauto].
      destruct (_ && _); [|tauto].
      rewrite get_set in H. destruct (String.eqb i id); [|tauto].
      right. exists el, h. inversion H; subst. simpl. tauto.
    + right. exists el', h. tauto.
Qed.

Lemma no_dot_segments l :
  existsb (fun s => String.eqb s ".") l = false ->
  existsb (fun s => String.eqb s "..") l = false ->
  forallb (fun s => negb (isDotSegment s)) l = true.
Proof.
  induction l as [|s l IH]; simpl; [reflexivity|].
  intros H1 H2. apply orb_false_iff in H1 as [H1 H1'].
  apply orb_false_iff in H2 as [H2 H2'].
  unfold isDotSegment at 1. rewrite H1, H2, IH by assumption. reflexivity.
Qed.

(** A reference that is already free of [.] and [..] segments and does not
    start with two slashes resolves to a normalized path against any
    base. *)
Lemma resolve_plain_normalized r d :
  hasDot r = false -> hasDotDot r = false ->
  JSString.startsWith r "//" = false ->
  cleanBase d = true ->
  normalizedPath (resolveRelativePath r d) = true.
Proof.
  intros Hd Hdd Hss Hclean.
  destruct (JSString.startsWith r "/") eqn:Hs.
  - unfold resolveRelativePath. rewrite Hs.
    destruct r as [|c r]; [discriminate|].
    rewrite startsWith_char in Hs. apply Ascii.eqb_eq in Hs. subst c.
    cbn [JSString.substringFrom].
    unfold hasDot, hasDotDot, segments in Hd, Hdd.
    cbn [JSString.split] in Hd, Hdd. rewrite Ascii.eqb_refl in Hd, Hdd.
    cbn [existsb] in Hd, Hdd.
    apply orb_false_iff in Hd as [_ Hd]. apply orb_false_iff in Hdd as [_ Hdd].
    unfold normalizedPath, segments. rewrite (no_dot_segments _ Hd Hdd).
    rewrite andb_true_r. apply negb_true_iff.
    destruct r as [|c r]; [reflexivity|].
    rewrite startsWith_char.
    unfold JSString.startsWith in Hss. cbn [String.prefix] in Hss.
    destruct (ascii_dec "/" "/") as [_|Hne]; [|congruence].
    destruct (ascii_dec "/" c) as [<-|Hne].
    + destruct r; discriminate.
    + apply Ascii.eqb_neq. exact Hne.
  - destruct (JSString.truthy d) eqn:Ht.
    + apply resolve_relative_normalized; assumption.
    + unfold resolveRelativePath. rewrite Hs, Ht. cbn [negb].
      unfold normalizedPath. rewrite Hs.
      apply (no_dot_segments _ Hd Hdd).
Qed.

(** The second worked example of the specification: a leading slash is
    stripped and the base is ignored. *)
Example resolve_absolute :
  resolveRelativePath "/OEBPS/cover.jpg" "OEBPS/text/" = "OEBPS/cover.jpg".
Proof. reflexivity. Qed.

(** C1. At the worked example of the specification the resolver returns
    ["images/cover.jpg"], not ["OEBPS/images/cover.jpg"]: the trailing
    slash of the base directory leaves no file name component behind, and
    the [pop] that is meant to remove one removes the directory [text]
    before the [..] segment removes [OEBPS]. *)
Theorem resolve_worked_example_loses_directory :
  resolveRelativePath "../images/cover.jpg" "OEBPS/text/" = "images/cover.jpg"
  /\ resolveRelativePath "../images/cover.jpg" "OEBPS/text/"
     <> "OEBPS/images/cover.jpg".
Proof. split; [reflexivity|discriminate]. Qed.

(** C10. Against the empty base directory a reference that does not start
    with a slash comes back verbatim, whatever [.] and [..] segments it
    contains. *)
Theorem resolve_empty_base_verbatim (r : string) :
  JSString.startsWith r "/" = false ->
  resolveRelativePath r "" = r.
Proof.
  intros Hrel. unfold resolveRelativePath. rewrite Hrel. reflexivity.
Qed.

(** The statement of C10 at a reference with [.] and [..] segments. *)
Lemma resolve_empty_base_verbatim_witness :
  JSString.startsWith "./text/../ch1.xhtml" "/" = false
  /\ resolveRelativePath "./text/../ch1.xhtml" "" = "./text/../ch1.xhtml".
Proof.
  split; [reflexivity|].
  apply (resolve_empty_base_verbatim "./text/../ch1.xhtml"). reflexivity.
Defined.

(** C2, as the specification states it, fails when the package document
    sits at the archive root: a reference without [..] keeps its [.]
    segment, and [parseManifest] stores it that way. *)
Lemma resolve_keeps_dot_segment_at_root :
  hasDotDot "./ch1.xhtml" = false
  /\ normalizedPath (resolveRelativePath "./ch1.xhtml" "") = false
  /\ exists item,
       JSObject.get (parseManifest opfDotHref "") "ch1" = Some item
       /\ normalizedPath (EpubManifestItem.href item) = false.
Proof.
  split; [reflexivity|]. split; [reflexivity|].
  eexists. split; reflexivity.
Qed.

(** C2, amended.  For a reference [r] without a [..] segment and a base
    directory [d] whose own segments are neither [.] nor [..], the resolved
    path has no [.] or [..] segment and no leading slash as soon as [r] is
    relative and [d] is not empty, or [r] itself has no [.] segment and
    does not start with two slashes.  Hence every href that
    [parseManifest] stores is normalized when the href attributes of the
    item elements are of that form. *)
Theorem resolve_normalized_clean_base (d : string) :
  cleanBase d = true ->
  (forall r,
      hasDotDot r = false ->
      (JSString.truthy d = true /\ JSString.startsWith r "/" = false)
      \/ (hasDot r = false /\ JSString.startsWith r "//" = false) ->
      normalizedPath (resolveRelativePath r d) = true)
  /\ (forall opfDoc,
         (forall el h,
             In el (manifestItemElements opfDoc) ->
             DOM.getAttribute (snd el) "href" = Some h ->
             hasDotDot h = false
             /\ ((JSString.truthy d = true /\ JSString.startsWith h "/" = false)
                 \/ (hasDot h = false /\ JSString.startsWith h "//" = false))) ->
         forall id item,
           JSObject.get (parseManifest opfDoc d) id = Some item ->
           normalizedPath (EpubManifestItem.href item) = true).
Proof.
  intros Hclean.
  assert (Hres : forall r,
      hasDotDot r = false ->
      (JSString.truthy d = true /\ JSString.startsWith r "/" = false)
      \/ (hasDot r = false /\ JSString.startsWith r "//" = false) ->
      normalizedPath (resolveRelativePath r d) = true).
  { intros r Hdd [[Ht Hrel] | [Hdot Hss]].
    - apply resolve_relative_normalized; assumption.
    - apply resolve_plain_normalized; assumption. }
  split; [exact Hres|].
  intros opfDoc Hitems id item Hget.
  apply parseManifest_entry in Hget as [Hget | (el & h & Hin & Hh & Heq)].
  - discriminate.
  - rewrite Heq. destruct (Hitems el h Hin Hh) as [Hdd Hform].
    apply Hres; assumption.
Qed.

(** The amended C2 at the base [OEBPS/]. *)
Lemma resolve_normalized_clean_base_witness :
  cleanBase "OEBPS/" = true
  /\ normalizedPath (resolveRelativePath "./text/ch1.xhtml" "OEBPS/") = true
  /\ forall id item,
       JSObject.get (parseManifest opfDotHref "OEBPS/") id = Some item ->
       normalizedPath (EpubManifestItem.href item) = true.
Proof.
  split; [reflexivity|].
  destruct (resolve_normalized_clean_base "OEBPS/" eq_refl) as [Hres Hman].
  split.
  - apply Hres; [reflexivity|]. left. split; reflexivity.
  - apply Hman. intros el h Hin Hh.
    vm_compute in Hin. destruct Hin as [<-|[]].
    vm_compute in Hh. inversion Hh; subst.
    split; [reflexivity|]. left. split; reflexivity.
Defined.

(** ** The sort *)

Section SortFacts.
Context {A : Type} (comparefn : A -> A -> Number).

Lemma sortInsert_permutation x l :
  Permutation (sortInsert comparefn x l) (x :: l).
Proof.
  induction l as [|y l IH]; simpl; [reflexivity|].
  destruct (JSNumber.positive (comparefn y x)); [reflexivity|].
  rewrite IH. apply perm_swap.
Qed.

Lemma sort_loop_permutation l acc :
  Permutation (fold_left (fun acc x => sortInsert comparefn x acc) l acc)
              (acc ++ l).
Proof.
  revert acc. induction l as [|x l IH]; intros acc; simpl.
  - rewrite app_nil_r. reflexivity.
  - rewrite IH, sortInsert_permutation. apply Permutation_middle.
Qed.

(** The sort rearranges, it neither drops nor adds an element. *)
Lemma arraySort_permutation l : Permutation (arraySort comparefn l) l.
Proof. unfold arraySort. rewrite sort_loop_permutation. reflexivity. Qed.

End SortFacts.

Lemma ascendingByOrder_Sorted l :
  ascendingByOrder l = true <-> Sorted orderLe l.
Proof.
  induction l as [|a [|b l] IH].
  - split; [constructor|reflexivity].
  - split; [repeat constructor|reflexivity].
  - change (ascendingByOrder (a :: b :: l))
      with (JSNumber.leb (EpubNavPoint.order a) (EpubNavPoint.order b)
            && ascendingByOrder (b :: l)).
    rewrite andb_true_iff, IH. split.
    + intros [Hab Hs]. constructor; [exact Hs|constructor; exact Hab].
    + intros Hs. inversion Hs as [|? ? Hs' Hhd]; subst.
      inversion Hhd; subst. tauto.
Qed.

Lemma sortInsert_head x y l :
  orderLe y x -> HdRel orderLe y l -> HdRel orderLe y (sortInsert byOrder x l).
Proof.
  intros Hyx Hhd. destruct l as [|z l]; simpl.
  - constructor. exact Hyx.
  - destruct (JSNumber.positive (byOrder z x)); constructor.
    + exact Hyx.
    + inversion Hhd; assumption.
Qed.

Lemma sortInsert_sorted x l :
  numericOrder x = true ->
  Forall (fun p => numericOrder p = true) l ->
  Sorted orderLe l ->
  Sorted orderLe (sortInsert byOrder x l).
Proof.
  intros Hx Hall Hs. induction Hs as [|y l Hs IH Hhd]; simpl.
  - repeat constructor.
  - inversion Hall as [|? ? Hy Hl]; subst.
    unfold numericOrder in *. unfold byOrder at 1.
    destruct (EpubNavPoint.order y) as [oy|] eqn:Ey; [|discriminate].
    destruct (EpubNavPoint.order x) as [ox|] eqn:Ex; [|discriminate].
    simpl. destruct (Z.ltb_spec 0 (oy - ox)) as [Hlt|Hge].
    + constructor; [constructor; assumption|].
      constructor. unfold orderLe. rewrite Ex, Ey. simpl.
      apply Z.leb_le. lia.
    + constructor; [exact (IH Hl)|].
      apply sortInsert_head; [|exact Hhd].
      unfold orderLe. rewrite Ex, Ey. simpl. apply Z.leb_le. lia.
Qed.

Lemma sort_loop_sorted l acc :
  Forall (fun p => numericOrder p = true) l ->
  Forall (fun p => numericOrder p = true) acc ->
  Sorted orderLe acc ->
  Sorted orderLe (fold_left (fun acc x => sortInsert byOrder x acc) l acc).
Proof.
  intros Hl. revert acc.
  induction Hl as [|x l Hx Hl IH]; intros acc Hacc Hs; simpl; [exact Hs|].
  apply IH.
  - rewrite sortInsert_permutation. constructor; assumption.
  - apply sortInsert_sorted; assumption.
Qed.

(** When every order is a number, sorting by [a.order - b.order] leaves
    the list in ascending order. *)
Lemma arraySort_ascending l :
  Forall (fun p => numericOrder p = true) l ->
  ascendingByOrder (arraySort byOrder l) = true.
Proof.
  intros Hl. apply ascendingByOrder_Sorted.
  apply sort_loop_sorted; [exact Hl|constructor|constructor].
Qed.

(** ** The navigation stage *)

(** Outside the inputs with a [playOrder] that is not a numeral, the
    forest is in ascending order. *)
Lemma parseNavPoints_ascending ncxDoc :
  Forall (fun p => numericOrder p = true) (parseNavPoints ncxDoc) ->
  ascendingByOrder (parseNavPoints ncxDoc) = true.
Proof.
  unfold parseNavPoints. intros Hall.
  apply arraySort_ascending.
  rewrite arraySort_permutation in Hall. exact Hall.
Qed.

(** The specification's example: source order 3, 1, 2 comes out as 1, 2,
    3, and the children of the third point keep their source order 9, 8. *)
Example parseNavPoints_shuffled :
  List.map EpubNavPoint.id (parseNavPoints ncxShuffled)
  = ["first"; "second"; "third"; "a"; "b"]
  /\ List.map (fun p => List.map EpubNavPoint.id (EpubNavPoint.children p))
       (parseNavPoints ncxShuffled)
     = [[]; []; ["b"; "a"]; []; []].
Proof. split; reflexivity. Qed.

Lemma flat_map_filter_omap {A B : Type} (p : A -> bool) (f : A -> option B) l :
  List.flat_map
    (fun x => if p x then match f x with Some y => [y] | None => [] end else [])
    l
  = omap f (List.filter p l).
Proof.
  induction l as [|x l IH]; [reflexivity|].
  cbn [List.flat_map List.filter]. rewrite IH.
  destruct (p x); [|reflexivity].
  cbn [omap list_omap]. destruct (f x); reflexivity.
Qed.

(** The children of a point are the parsed [navPoint] child elements, in
    document order. *)
Lemma parseNavPoint_children ancestors nm attrs cs p :
  parseNavPoint ancestors (Element nm attrs cs) = Some p ->
  EpubNavPoint.children p
  = omap (parseNavPoint (nm :: ancestors)) (DOM.scopeChildren "navPoint" cs).
Proof.
  cbn [parseNavPoint].
  destruct (DOM.getAttribute _ "id") as [id|]; [|discriminate].
  destruct (textOf _) as [label|]; [|discriminate].
  destruct (DOM.querySelector _ (DOM.Single _)) as [contentEl|]; [|discriminate].
  destruct (JSString.truthy id); [|discriminate].
  intros H. inversion H; subst; clear H. cbn [EpubNavPoint.children].
  exact (flat_map_filter_omap (DOM.matchesCompound (DOM.TypeSel "navPoint"))
           (parseNavPoint (nm :: ancestors)) cs).
Qed.

(** The order of a point, from its [playOrder] attribute. *)
Lemma parseNavPoint_order ancestors element p :
  parseNavPoint ancestors element = Some p ->
  EpubNavPoint.order p
  = match DOM.getAttribute element "playOrder" with
    | Some playOrder =>
        if JSString.truthy playOrder then JSNumber.parseInt10 playOrder
        else Num 0
    | None => Num 0
    end.
Proof.
  destruct element as [nm attrs cs| |]; [|discriminate..].
  cbn [parseNavPoint].
  destruct (DOM.getAttribute _ "id") as [id|]; [|discriminate].
  destruct (textOf _) as [label|]; [|discriminate].
  destruct (DOM.querySelector _ (DOM.Single _)) as [contentEl|]; [|discriminate].
  destruct (JSString.truthy id); [|discriminate].
  intros H. inversion H; subst; clear H. reflexivity.
Qed.

Lemma digitValue_digit c d :
  JSNumber.digitValue c = Some d -> d = Z.of_nat (nat_of_ascii c) - 48.
Proof.
  unfold JSNumber.digitValue.
  destruct (Nat.leb_spec 48 (nat_of_ascii c)); [|discriminate].
  destruct (_ <=? _)%nat; [|discriminate].
  intros [= <-]. lia.
Qed.

Lemma digitsPrefix_numeral acc s :
  JSObject.allDigits s = true ->
  JSNumber.digitsPrefix (Some acc) s = Some (numeralFrom acc s).
Proof.
  revert acc. induction s as [|c s IH]; intros acc; [reflexivity|].
  cbn [JSObject.allDigits JSNumber.digitsPrefix numeralFrom].
  destruct (JSNumber.digitValue c) as [d|] eqn:Hd; [|discriminate].
  intros Hs. rewrite (IH _ Hs). apply digitValue_digit in Hd. subst d.
  reflexivity.
Qed.

Lemma digit_not_space c d :
  JSNumber.digitValue c = Some d -> JSNumber.isWhiteSpace c = false.
Proof.
  unfold JSNumber.digitValue, JSNumber.isWhiteSpace.
  destruct (Nat.leb_spec 48 (nat_of_ascii c)); [|discriminate].
  intros _.
  destruct (Nat.leb_spec (nat_of_ascii c) 13); [lia|].
  rewrite andb_false_r. apply Nat.eqb_neq. lia.
Qed.

Lemma trimStart_digit c d s :
  JSNumber.digitValue c = Some d ->
  JSNumber.trimStart (String c s) = String c s.
Proof.
  intros Hd. cbn [JSNumber.trimStart]. rewrite (digit_not_space c d Hd).
  assert (Hc : (nat_of_ascii c <=? 57)%nat = true).
  { unfold JSNumber.digitValue in Hd.
    destruct (48 <=? nat_of_ascii c)%nat; [|discriminate].
    destruct (nat_of_ascii c <=? 57)%nat; [reflexivity|discriminate]. }
  apply Nat.leb_le in Hc.
  assert (H2 : forall c2, JSNumber.isWhiteSpace2 c c2 = false).
  { intros c2. unfold JSNumber.isWhiteSpace2.
    destruct (Nat.eqb_spec (nat_of_ascii c) 194); [lia|reflexivity]. }
  assert (H3 : forall c2 c3, JSNumber.isWhiteSpace3 c c2 c3 = false).
  { intros c2 c3. unfold JSNumber.isWhiteSpace3.
    destruct (Nat.eqb_spec (nat_of_ascii c) 225); [lia|].
    destruct (Nat.eqb_spec (nat_of_ascii c) 226); [lia|].
    destruct (Nat.eqb_spec (nat_of_ascii c) 227); [lia|].
    destruct (Nat.eqb_spec (nat_of_ascii c) 239); [lia|].
    reflexivity. }
  destruct s as [|c2 [|c3 s3]]; [reflexivity|rewrite H2; reflexivity|].
  rewrite H2, H3. reflexivity.
Qed.

(** [parseInt] on a numeral is the integer that the numeral denotes. *)
Lemma parseInt10_numeral s :
  isNumeral s = true -> JSNumber.parseInt10 s = Num (numeralValue s).
Proof.
  unfold isNumeral. destruct s as [|c s]; [discriminate|].
  cbn [JSString.truthy String.eqb negb andb JSObject.allDigits].
  destruct (JSNumber.digitValue c) as [d|] eqn:Hd; [|discriminate].
  intros Hs. unfold JSNumber.parseInt10. rewrite (trimStart_digit c d s Hd).
  assert (Hbody :
    JSNumber.digitsPrefix None (String c s) = Some (numeralValue (String c s))).
  { cbn [JSNumber.digitsPrefix]. rewrite Hd. cbn [default].
    rewrite (digitsPrefix_numeral _ _ Hs).
    apply digitValue_digit in Hd. subst d. reflexivity. }
  assert (Hplain : c <> "-"%char /\ c <> "+"%char).
  { split; intros ->; discriminate Hd. }
  destruct Hplain as [Hminus Hplus].
  destruct c as [[] [] [] [] [] [] [] []];
    try congruence; rewrite Hbody; f_equal; lia.
Qed.

(** The order of a point whose [playOrder] is a numeral is the integer
    value of the numeral; without the attribute it is 0. *)
Lemma parseNavPoint_numeral_order ancestors element p :
  parseNavPoint ancestors element = Some p ->
  match DOM.getAttribute element "playOrder" with
  | Some playOrder =>
      isNumeral playOrder = true ->
      EpubNavPoint.order p = Num (numeralValue playOrder)
  | None => EpubNavPoint.order p = Num 0
  end.
Proof.
  intros Hparse. rewrite (parseNavPoint_order _ _ _ Hparse).
  destruct (DOM.getAttribute element "playOrder") as [playOrder|];
    [|reflexivity].
  intros Hnum. rewrite (parseInt10_numeral _ Hnum).
  unfold isNumeral in Hnum. apply andb_true_iff in Hnum as [-> _].
  reflexivity.
Qed.

(** C3. The navigation map of [ncxNested] has one direct child, the
    chapter; the parse returns two top-level points, because
    [navMap.querySelectorAll('navPoint')] selects every descendant: the
    section is both a child of the chapter and a top-level entry. *)
Theorem nested_navPoint_repeated_at_top_level :
  let section := EpubNavPoint.mk "section" "section" "section.xhtml" (Num 2) [] in
  parseNavPoints ncxNested
  = [EpubNavPoint.mk "chapter" "chapter" "chapter.xhtml" (Num 1) [section];
     section].
Proof. reflexivity. Qed.

(** C4. With a [playOrder] that is not a numeral the order of the point is
    [NaN], the comparator returns [NaN], and the forest is not in ascending
    order, in whichever of the two arrangements the sort leaves it. *)
Theorem nonnumeric_playOrder_forest_not_ascending :
  let forest := parseNavPoints ncxNonNumeric in
  List.map EpubNavPoint.id forest = ["intro"; "chapter"]
  /\ List.map EpubNavPoint.order forest = [NaN; Num 1]
  /\ ascendingByOrder forest = false
  /\ ascendingByOrder (rev forest) = false.
Proof. repeat split. Qed.

(** C8. A point whose [playOrder] is not a numeral gets the order [NaN],
    not [0]. *)
Theorem nonnumeric_playOrder_is_NaN :
  EpubNavPoint.order <$> parseNavPoint ["navMap"; "ncx"] (navPointElement "intro" "x" [])
  = Some NaN.
Proof. reflexivity. Qed.

(** ** Cover resolution *)

Lemma forOf_find {A R : Type} (p : A -> bool) (g : A -> R) l :
  forOf (fun x => if p x then Some (g x) else None) l = g <$> List.find p l.
Proof.
  induction l as [|x l IH]; [reflexivity|].
  cbn [forOf List.find]. destruct (p x); [reflexivity|exact IH].
Qed.

Lemma forOf_Some {A R : Type} (body : A -> option R) l r :
  forOf body l = Some r -> exists x, In x l /\ body x = Some r.
Proof.
  induction l as [|x l IH]; [discriminate|].
  cbn [forOf]. destruct (body x) as [r'|] eqn:Hx.
  - intros [= ->]. exists x. split; [left; reflexivity|exact Hx].
  - intros H. destruct (IH H) as (x' & Hin & Hx'). exists x'.
    split; [right; exact Hin|exact Hx'].
Qed.

(** A read of the manifest yields an item exactly when the object holds
    that item under the name. *)
Lemma readManifest_item manifest k item :
  readManifest manifest k = Some (ItemValue item)
  <-> JSObject.get manifest k = Some item.
Proof.
  unfold readManifest. destruct (JSObject.get manifest k) as [found|] eqn:Hget.
  - split; intros [= ->]; reflexivity.
  - split; [|discriminate]. unfold inheritedValue.
    destruct (String.eqb_spec k "__proto__") as [->|_].
    + rewrite Hget. discriminate.
    + destruct (JSObject.get manifest "__proto__") as [p|].
      * destruct (String.eqb k "id"); [discriminate|].
        destruct (String.eqb k "href"); [discriminate|].
        destruct (String.eqb k "mediaType"); [discriminate|].
        destruct (existsb _ _); discriminate.
      * destruct (existsb _ _); discriminate.
Qed.

Lemma readManifest_href manifest k found href :
  readManifest manifest k = Some found ->
  valueHref found = Some href ->
  exists item,
    JSObject.get manifest k = Some item /\ EpubManifestItem.href item = href.
Proof.
  intros Hread Hhref. destruct found as [item| |]; [|discriminate..].
  injection Hhref as <-. exists item. split; [|reflexivity].
  apply readManifest_item. exact Hread.
Qed.

(** Where the object holds nothing under a name, no [href] is read off
    what the prototype chain provides. *)
Lemma readManifest_absent manifest k :
  JSObject.get manifest k = None ->
  match readManifest manifest k with
  | Some found => valueHref found
  | None => None
  end = None.
Proof.
  intros Hget. destruct (readManifest manifest k) as [found|] eqn:Hread;
    [|reflexivity].
  destruct found as [item| |]; try reflexivity.
  apply readManifest_item in Hread. congruence.
Qed.

(** Under the two literal cover ids the object has an item or nothing. *)
Lemma readManifest_literal_cover_id manifest id :
  In id ["cover"; "cover-image"] ->
  readManifest manifest id = ItemValue <$> JSObject.get manifest id.
Proof.
  intros Hid. unfold readManifest.
  destruct (JSObject.get manifest id) as [item|]; [reflexivity|].
  destruct Hid as [<-|[<-|[]]]; cbn;
    destruct (JSObject.get manifest "__proto__"); reflexivity.
Qed.

(** The specification's example: without a [meta] element and without an
    item of a literal cover id, the item marked [properties="cover-image"]
    gives the cover. *)
Example findCoverPath_property_item :
  findCoverPath opfCoverProperty (parseManifest opfCoverProperty "")
  = Some "images/front.jpg".
Proof. reflexivity. Qed.

(** When the [meta] element names an id that nothing provides, the first
    strategy fails and the literal id [cover] decides. *)
Example findCoverPath_absent_meta_id :
  findCoverPath opfAbsentCoverId (parseManifest opfAbsentCoverId "")
  = Some "images/cover.jpg".
Proof. reflexivity. Qed.

(** C5. On [opfInheritedCoverId] the [meta] element names the id
    [constructor], which no item has, and an image item has the literal id
    [cover], so the first strategy fails and the second would return
    ["images/cover.jpg"].  The code finds the function
    [Object.prototype.constructor] under [manifest['constructor']], takes
    the lookup for a success, and returns its [href], which is
    [undefined]: no cover, and no later strategy is tried. *)
Theorem cover_lost_on_inherited_name :
  let manifest := parseManifest opfInheritedCoverId "" in
  JSObject.get manifest "constructor" = None
  /\ JSObject.get manifest "cover"
     = Some (EpubManifestItem.mk "cover" "images/cover.jpg" "image/jpeg")
  /\ readManifest manifest "constructor" = Some BuiltinValue
  /\ findCoverPath opfInheritedCoverId manifest = None.
Proof. repeat split. Qed.

(** ** The manifest object *)

Lemma set_keys {V : Type} (o : JSObject.t V) k v :
  List.map fst (JSObject.set k v o)
  = if existsb (String.eqb k) (List.map fst o) then List.map fst o
    else List.map fst o ++ [k].
Proof.
  induction o as [|[k0 v0] o IH]; [reflexivity|].
  cbn [JSObject.set List.map fst existsb].
  rewrite (String.eqb_sym k k0).
  destruct (String.eqb k0 k); [reflexivity|].
  cbn [List.map fst orb]. rewrite IH.
  destruct (existsb _ _); reflexivity.
Qed.

Lemma existsb_eqb_In k (l : list string) :
  existsb (String.eqb k) l = false -> ~ In k l.
Proof.
  intros H Hin. apply existsb_false_Forall in H.
  rewrite Forall_forall in H. apply list_elem_of_In in Hin.
  specialize (H k Hin). rewrite String.eqb_refl in H. discriminate.
Qed.

Lemma set_values {V : Type} (o : JSObject.t V) k v kv :
  In kv (JSObject.set k v o) -> kv = (k, v) \/ In kv o.
Proof.
  induction o as [|[k0 v0] o IH]; simpl.
  - intros [<-|[]]. tauto.
  - destruct (String.eqb_spec k0 k) as [->|Hne]; simpl.
    + intros [<-|H]; tauto.
    + intros [<-|H]; [tauto|]. apply IH in H. tauto.
Qed.

Lemma set_wellKeyed (manifest : Manifest) item :
  wellKeyed manifest ->
  wellKeyed (JSObject.set (EpubManifestItem.id item) item manifest).
Proof.
  intros [Hnd Hid]. split.
  - rewrite set_keys.
    destruct (existsb _ _) eqn:Hex; [exact Hnd|].
    apply NoDup_ListNoDup, NoDup_app. apply NoDup_ListNoDup in Hnd.
    split; [exact Hnd|]. split.
    + intros x Hx Hx'. apply list_elem_of_singleton in Hx'. subst x.
      apply list_elem_of_In in Hx. exact (existsb_eqb_In _ _ Hex Hx).
    + apply NoDup_singleton.
  - apply Forall_forall. intros kv Hin. apply list_elem_of_In in Hin.
    apply set_values in Hin as [->|Hin]; [reflexivity|].
    rewrite Forall_forall in Hid. apply Hid, list_elem_of_In, Hin.
Qed.

(** [parseManifest] builds an object with one property per id. *)
Lemma parseManifest_wellKeyed opfDoc basePath :
  wellKeyed (parseManifest opfDoc basePath).
Proof.
  unfold parseManifest.
  assert (Hempty : wellKeyed (JSObject.empty : Manifest)).
  { split; constructor. }
  revert Hempty. generalize (JSObject.empty : Manifest).
  induction (DOM.docQuerySelectorAll opfDoc _) as [|el items IH];
    intros acc Hacc; [exact Hacc|].
  cbn [fold_left]. apply IH. unfold manifestStep.
  destruct (DOM.getAttribute (snd el) "id") as [i|]; [|exact Hacc].
  destruct (DOM.getAttribute (snd el) "href") as [h|]; [|exact Hacc].
  destruct (DOM.getAttribute (snd el) "media-type") as [m|]; [|exact Hacc].
  destruct (_ && _); [|exact Hacc].
  exact (set_wellKeyed acc (EpubManifestItem.mk i _ m) Hacc).
Qed.

Lemma get_In {V : Type} (o : JSObject.t V) k v :
  JSObject.get o k = Some v -> In (k, v) o.
Proof.
  induction o as [|[k0 v0] o IH]; simpl; [discriminate|].
  destruct (String.eqb_spec k0 k) as [->|Hne].
  - intros [= ->]. tauto.
  - intros H. right. exact (IH H).
Qed.

Lemma In_get {V : Type} (o : JSObject.t V) k v :
  List.NoDup (List.map fst o) -> In (k, v) o -> JSObject.get o k = Some v.
Proof.
  induction o as [|[k0 v0] o IH]; [intros _ []|].
  cbn [List.map fst JSObject.get]. intros Hnd [Heq|Hin].
  - injection Heq as -> ->. rewrite String.eqb_refl. reflexivity.
  - inversion Hnd as [|? ? Hfresh Hnd']; subst.
    destruct (String.eqb_spec k0 k) as [->|_]; [|exact (IH Hnd' Hin)].
    exfalso. apply Hfresh. apply (in_map fst) in Hin. exact Hin.
Qed.

Lemma enumerable_In {V : Type} (o : JSObject.t V) kv :
  In kv (JSObject.enumerable o) <-> In kv o /\ fst kv <> "__proto__".
Proof.
  unfold JSObject.enumerable. rewrite filter_In, negb_true_iff.
  rewrite String.eqb_neq. reflexivity.
Qed.

(** [Object.values] lists the values of the own properties, each once. *)
Lemma ownValues_permutation {V : Type} (o : JSObject.t V) :
  Permutation (JSObject.ownValues o) (List.map snd (JSObject.enumerable o)).
Proof.
  unfold JSObject.ownValues. generalize (JSObject.enumerable o). clear o.
  intros o.
  transitivity (List.map snd (JSObject.indexed o) ++ JSObject.named o).
  { apply Permutation_app_tail, Permutation_map, arraySort_permutation. }
  unfold JSObject.indexed, JSObject.named.
  induction o as [|[k v] o IH]; [reflexivity|].
  cbn [List.flat_map List.map fst snd].
  destruct (JSObject.arrayIndex k).
  - cbn [app List.map snd]. constructor. exact IH.
  - cbn [app]. rewrite <- Permutation_middle. constructor. exact IH.
Qed.

(** The values that [Object.values] visits are those of the entries other
    than the prototype. *)
Lemma ownValues_In {V : Type} (o : JSObject.t V) v :
  In v (JSObject.ownValues o)
  <-> exists k, In (k, v) o /\ k <> "__proto__".
Proof.
  split.
  - intros Hin. eapply Permutation_in in Hin; [|apply ownValues_permutation].
    apply in_map_iff in Hin as ([k v'] & Heq & Hin). cbn in Heq. subst v'.
    apply enumerable_In in Hin. exists k. exact Hin.
  - intros (k & Hin & Hk).
    eapply Permutation_in; [symmetry; apply ownValues_permutation|].
    apply in_map_iff. exists (k, v). split; [reflexivity|].
    apply enumerable_In. split; assumption.
Qed.

Lemma NoDup_map_filter {A B : Type} (f : A -> B) (p : A -> bool) l :
  List.NoDup (List.map f l) -> List.NoDup (List.map f (List.filter p l)).
Proof.
  induction l as [|x l IH]; [intros _; constructor|].
  cbn [List.map List.filter]. intros Hnd.
  inversion Hnd as [|? ? Hfresh Hnd']; subst.
  destruct (p x); [|exact (IH Hnd')].
  cbn [List.map]. constructor; [|exact (IH Hnd')].
  intros Hin. apply Hfresh. apply in_map_iff in Hin as (y & Heq & Hy).
  apply filter_In in Hy as [Hy _]. apply in_map_iff. exists y. tauto.
Qed.

Lemma wellKeyed_values_NoDup (manifest : Manifest) :
  wellKeyed manifest ->
  List.NoDup (List.map EpubManifestItem.id (JSObject.ownValues manifest)).
Proof.
  intros [Hnd Hid].
  eapply Permutation_NoDup.
  - symmetry. apply Permutation_map. apply ownValues_permutation.
  - rewrite List.map_map.
    assert (Heq : List.map (fun kv => EpubManifestItem.id (snd kv))
                    (JSObject.enumerable manifest)
                  = List.map fst (JSObject.enumerable manifest)).
    { apply List.map_ext_in. intros kv Hin. apply enumerable_In in Hin as [Hin _].
      rewrite Forall_forall in Hid. apply Hid, list_elem_of_In, Hin. }
    rewrite Heq. apply NoDup_map_filter. exact Hnd.
Qed.

Lemma wellKeyed_get_value (manifest : Manifest) id item :
  wellKeyed manifest ->
  JSObject.get manifest id = Some item ->
  id <> "__proto__" ->
  In item (JSObject.ownValues manifest) /\ EpubManifestItem.id item = id.
Proof.
  intros [_ Hid] Hget Hown. apply get_In in Hget. split.
  - apply ownValues_In. exists id. split; assumption.
  - rewrite Forall_forall in Hid. apply (Hid (id, item)), list_elem_of_In, Hget.
Qed.

(** ** Content assembly *)

Section ContentLoop.
Variable parseXml : string -> Document.
Variable serializeToString : Document -> string.
Variable zip : Archive.
Variable basePath : string.
Variable manifest : Manifest.

Local Abbreviation step :=
  (contentStep parseXml serializeToString zip basePath manifest).
Local Abbreviation entry :=
  (markupEntry parseXml serializeToString zip basePath manifest).

Lemma contentStep_entry content item :
  step content item
  = if isMarkupType (EpubManifestItem.mediaType item) then
      match entry item with
      | Some markup => <[EpubManifestItem.id item := markup]> content
      | None => content
      end
    else content.
Proof.
  unfold contentStep, markupEntry, isMarkupType.
  destruct (_ || _); [|reflexivity].
  destruct (readString zip _) as [e|[html|]]; try reflexivity.
  destruct (JSString.truthy html); reflexivity.
Qed.

(** The loop writes under the ids of the items it visits only. *)
Lemma content_loop_other items content k :
  Forall (fun item => EpubManifestItem.id item <> k) items ->
  fold_left step items content !! k = content !! k.
Proof.
  intros Hall. revert content.
  induction Hall as [|item items Hne _ IH]; intros content; [reflexivity|].
  cbn [fold_left]. rewrite IH, contentStep_entry.
  destruct (isMarkupType _); [|reflexivity].
  destruct (entry item); [|reflexivity].
  apply lookup_insert_ne. exact Hne.
Qed.

(** When the ids are pairwise distinct, what the loop leaves under the id
    of a markup item is decided by that item alone. *)
Lemma content_loop_entry items content item :
  List.NoDup (List.map EpubManifestItem.id items) ->
  In item items ->
  isMarkupType (EpubManifestItem.mediaType item) = true ->
  fold_left step items content !! EpubManifestItem.id item
  = match entry item with
    | Some markup => Some markup
    | None => content !! EpubManifestItem.id item
    end.
Proof.
  intros Hnd Hin Hmarkup. revert content.
  induction items as [|x items IH]; intros content; [destruct Hin|].
  cbn [List.map] in Hnd. inversion Hnd as [|? ? Hfresh Hnd']; subst.
  cbn [fold_left]. destruct Hin as [->|Hin].
  - rewrite content_loop_other.
    + rewrite contentStep_entry, Hmarkup.
      destruct (entry item); [apply lookup_insert_eq|reflexivity].
    + apply Forall_forall. intros y Hy Heq. apply Hfresh.
      rewrite <- Heq. apply in_map, list_elem_of_In, Hy.
  - rewrite (IH Hnd' Hin). destruct (entry item); [reflexivity|].
    rewrite contentStep_entry.
    destruct (isMarkupType (EpubManifestItem.mediaType x)); [|reflexivity].
    destruct (entry x); [|reflexivity].
    apply lookup_insert_ne. intros Heq. apply Hfresh.
    rewrite Heq. apply in_map, Hin.
Qed.

End ContentLoop.

(** C7, amended.  When the reads that [parseEpub] does not guard succeed
    (the archive opens, the container descriptor and the package document
    are read, and neither the navigation read nor the cover read rejects),
    the parse returns a model whatever the markup reads do, and for every
    item that the manifest holds as an own property (an item whose id is
    not [__proto__], which [Object.values] therefore visits) and whose
    media type denotes markup the map [content] has, under the id of the
    item: the rewritten markup when the read yields a non-empty text, the
    placeholder with the message of the error when the read rejects, and
    no entry when the archive has no file at the href of the item or the
    file is empty. *)
Theorem markup_entries_after_assembly
  (loadAsync : bytes -> JSError + Archive) (parseXml : string -> Document)
  (serializeToString : Document -> string) (data : bytes)
  (zip : Archive) (containerXml rootfilePath opfContent : string) :
  loadAsync data = inr zip ->
  readString zip "META-INF/container.xml" = inr (Some containerXml) ->
  JSString.truthy containerXml = true ->
  rootfileOf (parseXml containerXml) = Some rootfilePath ->
  JSString.truthy rootfilePath = true ->
  readString zip rootfilePath = inr (Some opfContent) ->
  JSString.truthy opfContent = true ->
  let opfDoc := parseXml opfContent in
  let basePath := directoryOf rootfilePath in
  let manifest := parseManifest opfDoc basePath in
  (forall item,
      JSObject.get manifest (EpubSpine.toc (parseSpine opfDoc)) = Some item ->
      fulfilled (readString zip (EpubManifestItem.href item))) ->
  (forall coverPath,
      findCoverPath opfDoc manifest = Some coverPath ->
      fulfilled (readBytes zip coverPath)) ->
  exists model,
    parseEpub loadAsync parseXml serializeToString data = inr model
    /\ EpubContent.manifest model = manifest
    /\ forall id item,
         id <> "__proto__" ->
         JSObject.get manifest id = Some item ->
         isMarkupType (EpubManifestItem.mediaType item) = true ->
         EpubContent.content model !! id
         = match readString zip (EpubManifestItem.href item) with
           | inr (Some htmlContent) =>
               if JSString.truthy htmlContent then
                 Some (processHtml parseXml serializeToString htmlContent
                         (EpubManifestItem.href item) basePath manifest)
               else None
           | inr None => None
           | inl e =>
               Some ("<p>Error loading content: " +:+ messageOf e +:+ "</p>")
           end.
Proof.
  intros Hload Hcontainer Hct Hroot Hrt Hopf Hot opfDoc basePath manifest
    Htoc Hcover.
  unfold parseEpub. rewrite Hload. cbn [await]. rewrite Hcontainer.
  cbn [await JSString.truthyOpt JSString.orElse]. rewrite Hct. cbn [negb].
  unfold rootfileOf in Hroot. rewrite Hroot.
  cbn [JSString.truthyOpt JSString.orElse]. rewrite Hrt. cbn [negb].
  rewrite Hopf. cbn [await JSString.truthyOpt JSString.orElse].
  rewrite Hot. cbn [negb].
  fold opfDoc. fold basePath. fold manifest.
  match goal with
  | |- context [await ?p _] =>
      assert (Hnav : exists navPoints, p = inr navPoints)
  end.
  { destruct (readManifest manifest _) as [found|] eqn:Hread;
      cbn [JSString.truthyOpt JSString.orElse]; [|eauto].
    destruct (valueHref found) as [tocHref|] eqn:Hhref;
      cbn [JSString.truthyOpt JSString.orElse]; [|eauto].
    destruct (readManifest_href _ _ _ _ Hread Hhref) as (tocItem & Hget & <-).
    destruct (JSString.truthy (EpubManifestItem.href tocItem)); [|eauto].
    destruct (Htoc tocItem Hget) as [tocContent ->]. cbn [await].
    destruct (JSString.truthyOpt tocContent); eauto. }
  destruct Hnav as [navPoints ->]. cbn [await].
  match goal with
  | |- context [await ?p _] =>
      assert (Hcov : exists coverData, p = inr coverData)
  end.
  { destruct (findCoverPath opfDoc manifest) as [coverPath|] eqn:Hfind;
      cbn [JSString.truthyOpt JSString.orElse]; [|eauto].
    destruct (JSString.truthy coverPath); [|eauto].
    exact (Hcover coverPath eq_refl). }
  destruct Hcov as [coverData ->]. cbn [await].
  eexists. split; [reflexivity|]. split; [reflexivity|].
  intros id item Hown Hget Hmarkup. cbn [EpubContent.content].
  pose proof (parseManifest_wellKeyed opfDoc basePath) as Hkeyed.
  fold manifest in Hkeyed.
  destruct (wellKeyed_get_value manifest id item Hkeyed Hget Hown) as [Hin <-].
  rewrite (content_loop_entry parseXml serializeToString zip basePath manifest
             _ ∅ item (wellKeyed_values_NoDup manifest Hkeyed) Hin Hmarkup).
  unfold markupEntry.
  destruct (readString zip (EpubManifestItem.href item)) as [e|[html|]];
    [reflexivity| |apply lookup_empty].
  destruct (JSString.truthy html); [reflexivity|apply lookup_empty].
Qed.

(** The amended C7 on the sample archive: the chapter that cannot be
    decompressed gets the placeholder. *)
Lemma markup_entries_after_assembly_witness :
  exists model,
    parseEpub sampleLoadAsync sampleParseXml sampleSerialize [] = inr model
    /\ EpubContent.content model !! "ch1"
       = Some "<p>Error loading content: Corrupted zip</p>".
Proof.
  destruct (markup_entries_after_assembly
              sampleLoadAsync sampleParseXml sampleSerialize []
              sampleArchive "container" "content.opf" "package")
    as (model & Hparse & _ & Hentries).
  - reflexivity.
  - reflexivity.
  - reflexivity.
  - reflexivity.
  - reflexivity.
  - reflexivity.
  - reflexivity.
  - intros item Hget. vm_compute in Hget. discriminate.
  - intros coverPath Hfind. vm_compute in Hfind. discriminate.
  - exists model. split; [exact Hparse|].
    rewrite (Hentries "ch1"
               (EpubManifestItem.mk "ch1" "ch1.xhtml" "application/xhtml+xml"));
      [reflexivity|discriminate|reflexivity|reflexivity].
Defined.

(** C7, as the specification states it, fails for a markup item whose file
    is not in the archive: the read resolves to [undefined], nothing is
    thrown, and [content] gets no entry under the id, not even the
    placeholder. *)
Lemma missing_markup_file_leaves_no_entry :
  exists model,
    parseEpub sampleLoadAsync sampleParseXml sampleSerialize [] = inr model
    /\ JSObject.get (EpubContent.manifest model) "ch2"
       = Some (EpubManifestItem.mk "ch2" "ch2.xhtml" "application/xhtml+xml")
    /\ isMarkupType "application/xhtml+xml" = true
    /\ EpubContent.content model !! "ch2" = None.
Proof.
  eexists. split; [reflexivity|]. repeat split.
Qed.

(** C6. When the archive has no entry [META-INF/container.xml] the parse
    fails with the error "Invalid EPUB: Missing container.xml": the result
    is that error and no model. *)
Theorem missing_container_is_fatal
  (loadAsync : bytes -> JSError + Archive) (parseXml : string -> Document)
  (serializeToString : Document -> string) (data : bytes) (zip : Archive) :
  loadAsync data = inr zip ->
  zip !! "META-INF/container.xml" = None ->
  parseEpub loadAsync parseXml serializeToString data
  = inl (Error "Invalid EPUB: Missing container.xml").
Proof.
  intros Hload Hmissing. unfold parseEpub, readString.
  rewrite Hload. cbn [await]. rewrite Hmissing. reflexivity.
Qed.

(** C6 on the archive without entries. *)
Lemma missing_container_is_fatal_witness :
  parseEpub emptyLoadAsync sampleParseXml sampleSerialize []
  = inl (Error "Invalid EPUB: Missing container.xml").
Proof.
  apply (missing_container_is_fatal emptyLoadAsync sampleParseXml
           sampleSerialize [] ∅); reflexivity.
Defined.

(** ** More on the path resolver *)

Lemma split_join_segments parts :
  parts <> [] ->
  Forall (fun s => occursIn "/" s = false) parts ->
  JSString.split "/" (JSString.join "/" parts) = parts.
Proof.
  intros Hne Hall. induction Hall as [|x l Hx Hl IH]; [congruence|].
  destruct l as [|y l].
  - simpl. apply split_without_separator. exact Hx.
  - rewrite join_cons. change ("/" +:+ ?r) with (String "/"%char r).
    rewrite (split_append _ _ _ Hx), IH by discriminate. reflexivity.
Qed.

Lemma stackSegment_spec s :
  stackSegment s = true <-> JSString.truthy s = true /\ occursIn "/" s = false.
Proof.
  unfold stackSegment. rewrite andb_true_iff, negb_true_iff. reflexivity.
Qed.

Lemma baseSegments_stack d :
  Forall (fun s => stackSegment s = true) (baseSegments d).
Proof.
  unfold baseSegments.
  pose proof (split_segments_plain "/" d) as Hsep.
  induction Hsep as [|s l Hs _ IH]; simpl; [constructor|].
  destruct s as [|c s]; simpl; [exact IH|].
  constructor; [|exact IH].
  apply stackSegment_spec. split; [reflexivity|exact Hs].
Qed.

(** The loop keeps the stack made of non-empty segments without a
    slash. *)
Lemma fold_resolveStep_stack parts stack :
  Forall (fun s => occursIn "/" s = false) parts ->
  Forall (fun s => stackSegment s = true) stack ->
  Forall (fun s => stackSegment s = true) (fold_left resolveStep parts stack).
Proof.
  intros Hparts. revert stack.
  induction Hparts as [|p parts Hp _ IH]; intros stack Hstack; [exact Hstack|].
  cbn [fold_left]. apply IH. unfold resolveStep.
  destruct (String.eqb p "..").
  - destruct (0 <? List.length stack)%nat; [|exact Hstack].
    apply Forall_removelast. exact Hstack.
  - destruct (negb (String.eqb p ".") && (0 <? String.length p)%nat) eqn:Hk;
      [|exact Hstack].
    apply Forall_app. split; [exact Hstack|].
    constructor; [|constructor].
    apply stackSegment_spec. split; [|exact Hp].
    apply andb_true_iff in Hk as [_ Hlen]. destruct p; [discriminate|reflexivity].
Qed.

(** X1. A relative reference resolved against a non-empty base never has
    an empty segment: the result is the empty string, or a path that
    neither starts nor ends with a slash and has no doubled slash. *)
Theorem resolve_relative_no_empty_segment (r d : string) :
  JSString.startsWith r "/" = false ->
  JSString.truthy d = true ->
  resolveRelativePath r d = ""
  \/ forallb stackSegment (segments (resolveRelativePath r d)) = true.
Proof.
  intros Hrel Hbase. unfold resolveRelativePath. rewrite Hrel, Hbase.
  cbn [negb]. fold (baseSegments d).
  set (stack := fold_left resolveStep _ _).
  assert (Hstack : Forall (fun s => stackSegment s = true) stack).
  { apply fold_resolveStep_stack; [apply split_segments_plain|].
    destruct (0 <? List.length _)%nat; [apply Forall_removelast|];
      apply baseSegments_stack. }
  destruct stack as [|x l] eqn:Hs; [left; reflexivity|].
  right. unfold segments. rewrite split_join_segments; [|discriminate|].
  - apply forallb_forall. intros s Hin. rewrite Forall_forall in Hstack.
    apply Hstack, list_elem_of_In, Hin.
  - eapply Forall_impl; [exact Hstack|].
    intros s Hok. apply stackSegment_spec in Hok. tauto.
Qed.

(** X1 at a reference with empty, [.] and [..] segments. *)
Lemma resolve_relative_no_empty_segment_witness :
  resolveRelativePath "a//./b/../c/" "OEBPS/text/" = ""
  \/ forallb stackSegment
       (segments (resolveRelativePath "a//./b/../c/" "OEBPS/text/")) = true.
Proof.
  apply (resolve_relative_no_empty_segment "a//./b/../c/" "OEBPS/text/");
    reflexivity.
Defined.

(** X2. For a relative reference without a [..] segment and a non-empty
    base, the result is made of the non-empty segments of the base without
    the last of them, followed by the segments of the reference that are
    neither empty nor [.]. *)
Theorem resolve_relative_closed_form (r d : string) :
  hasDotDot r = false ->
  JSString.startsWith r "/" = false ->
  JSString.truthy d = true ->
  resolveRelativePath r d
  = JSString.join "/"
      (removelast (baseSegments d)
       ++ List.filter keptSegment (JSString.split "/" r)).
Proof.
  intros Hdd Hrel Hbase. unfold resolveRelativePath. rewrite Hrel, Hbase.
  cbn [negb]. fold (baseSegments d).
  rewrite fold_resolveStep_pushes by (apply existsb_false_Forall; exact Hdd).
  unfold pop. destruct (baseSegments d); reflexivity.
Qed.

(** X2 at a manifest href and the base [OEBPS/]. *)
Lemma resolve_relative_closed_form_witness :
  resolveRelativePath "./text//ch1.xhtml" "OEBPS/" = "text/ch1.xhtml".
Proof.
  rewrite (resolve_relative_closed_form "./text//ch1.xhtml" "OEBPS/");
    reflexivity.
Defined.

Lemma fold_resolveStep_climb k stack :
  (List.length stack <= k)%nat ->
  fold_left resolveStep (repeat ".." k) stack = [].
Proof.
  revert stack. induction k as [|k IH]; intros stack Hlen.
  - destruct stack; [reflexivity|simpl in Hlen; lia].
  - cbn [repeat fold_left]. apply IH. unfold resolveStep.
    cbn [String.eqb Ascii.eqb Bool.eqb].
    destruct stack as [|x l]; [simpl; lia|].
    cbn [List.length Nat.ltb Nat.leb]. unfold pop.
    assert (Hrl : List.length (removelast (x :: l)) = List.length l).
    { clear. revert x. induction l as [|y l IHl]; intros x; [reflexivity|].
      change (removelast (x :: y :: l)) with (x :: removelast (y :: l)).
      cbn [List.length]. rewrite IHl. reflexivity. }
    rewrite Hrl. simpl in Hlen. lia.
Qed.

(** X3. Climbing above the archive root is clamped, not an error: a
    reference with at least as many leading [..] segments as the base has
    directories left resolves to what follows them. *)
Theorem resolve_climb_clamped (k : nat) (name d : string) :
  plainSegment name = true ->
  JSString.truthy d = true ->
  (List.length (baseSegments d) <= S k)%nat ->
  resolveRelativePath (climb k name) d = name.
Proof.
  intros Hname Hbase Hdepth.
  assert (Hslash : occursIn "/" name = false).
  { unfold plainSegment in Hname. apply andb_true_iff in Hname as [Hname _].
    apply andb_true_iff in Hname as [_ Hname].
    apply negb_true_iff in Hname. exact Hname. }
  assert (Hsplit : JSString.split "/" (climb k name) = repeat ".." k ++ [name]).
  { unfold climb. apply split_join_segments.
    - destruct (repeat ".." k); discriminate.
    - apply Forall_app. split; [|repeat constructor; exact Hslash].
      clear. induction k; constructor; [reflexivity|assumption]. }
  assert (Hrel : JSString.startsWith (climb k name) "/" = false).
  { unfold climb. destruct k as [|k].
    - cbn [repeat app]. simpl JSString.join.
      rewrite <- (append_empty_r name). apply startsWith_append_plain, Hname.
    - cbn [repeat app].
      destruct (repeat ".." k ++ [name]) as [|y l] eqn:Hrest.
      { destruct (repeat ".." k); discriminate. }
      rewrite join_cons.
      change (".." +:+ ?rest) with (String "."%char ("." +:+ rest)).
      rewrite startsWith_char. reflexivity. }
  unfold resolveRelativePath. rewrite Hrel, Hbase, Hsplit. cbn [negb].
  fold (baseSegments d). rewrite fold_left_app, fold_resolveStep_climb.
  - cbn [fold_left]. unfold resolveStep.
    unfold plainSegment, isDotSegment in Hname.
    apply andb_true_iff in Hname as [Hname Hdots].
    apply andb_true_iff in Hname as [Htruthy _].
    apply negb_true_iff, orb_false_iff in Hdots as [Hdot Hdotdot].
    rewrite Hdotdot, Hdot. destruct name; [discriminate|reflexivity].
  - destruct (baseSegments d) as [|x l]; [simpl; lia|].
    cbn [List.length Nat.ltb Nat.leb]. unfold pop.
    assert (Hrl : forall (y : string) m,
               List.length (removelast (y :: m)) = List.length m).
    { clear. intros y m. revert y.
      induction m as [|z m IHm]; intros y; [reflexivity|].
      change (removelast (y :: z :: m)) with (y :: removelast (z :: m)).
      cbn [List.length]. rewrite IHm. reflexivity. }
    rewrite Hrl. simpl in Hdepth. lia.
Qed.

(** X3 with two [..] segments against a base of two directories. *)
Lemma resolve_climb_clamped_witness :
  resolveRelativePath "../../cover.jpg" "OEBPS/text/" = "cover.jpg".
Proof.
  apply (resolve_climb_clamped 2 "cover.jpg" "OEBPS/text/");
    [reflexivity|reflexivity|simpl; lia].
Defined.

Lemma lastIndexOf_absent c s :
  occursIn c s = false -> JSString.lastIndexOf c s = -1.
Proof.
  induction s as [|a s IH]; [reflexivity|].
  cbn [occursIn JSString.lastIndexOf]. intros H.
  apply orb_false_iff in H as [Ha Hs]. rewrite (IH Hs), Ha. reflexivity.
Qed.

Lemma lastIndexOf_present c s :
  occursIn c s = true -> 0 <= JSString.lastIndexOf c s.
Proof.
  induction s as [|a s IH]; [discriminate|].
  cbn [occursIn JSString.lastIndexOf]. intros H.
  destruct (occursIn c s) eqn:Hs.
  - specialize (IH eq_refl). destruct (Z.leb_spec 0 (JSString.lastIndexOf c s)); lia.
  - rewrite orb_false_r in H. rewrite (lastIndexOf_absent _ _ Hs), H.
    simpl. lia.
Qed.

Lemma split_present_tail c s :
  occursIn c s = true ->
  exists h x t, JSString.split c s = h :: x :: t.
Proof.
  induction s as [|a s IH]; [discriminate|].
  cbn [occursIn JSString.split]. intros H.
  destruct (Ascii.eqb a c).
  - destruct (JSString.split c s) as [|x t] eqn:Hs;
      [exfalso; exact (split_not_nil _ _ Hs)|]. eauto.
  - destruct (IH H) as (h & x & t & ->). eauto.
Qed.

(** X4. The directory of a path, as [parseEpub] and [processHtml] compute
    it, is the path up to and including its last slash: followed by the
    bare file name it gives the path back, and the file name has no
    slash. *)
Theorem directoryOf_fileNameOf (path : string) :
  directoryOf path +:+ fileNameOf path = path
  /\ occursIn "/" (fileNameOf path) = false.
Proof.
  assert (Hlast : forall p,
             exists name, last (JSString.split "/" p) = Some name
                          /\ occursIn "/" name = false).
  { intros p. pose proof (split_segments_plain "/" p) as Hall.
    destruct (JSString.split "/" p) as [|x l] eqn:Hs;
      [exfalso; exact (split_not_nil _ _ Hs)|].
    clear Hs. revert x Hall. induction l as [|y l IH]; intros x Hall.
    - exists x. inversion Hall; subst. tauto.
    - inversion Hall; subst. apply (IH y). assumption. }
  split.
  - unfold directoryOf, fileNameOf, JSString.substringTo.
    induction path as [|a s IH]; [reflexivity|].
    cbn [JSString.lastIndexOf JSString.split].
    destruct (occursIn "/" s) eqn:Hocc.
    + pose proof (lastIndexOf_present _ _ Hocc) as Hpos.
      destruct (Z.leb_spec 0 (JSString.lastIndexOf "/" s)); [|lia].
      replace (Z.to_nat (JSString.lastIndexOf "/" s + 1 + 1))
        with (S (Z.to_nat (JSString.lastIndexOf "/" s + 1))) by lia.
      cbn [String.substring]. rewrite append_cons. f_equal.
      destruct (split_present_tail _ _ Hocc) as (h & x & t & Hs).
      rewrite Hs in *. destruct (Ascii.eqb a "/"); exact IH.
    + rewrite (lastIndexOf_absent _ _ Hocc).
      rewrite (split_without_separator _ _ Hocc).
      destruct (Ascii.eqb_spec a "/") as [->|Hne].
      * cbn [Z.leb Z.compare Z.add Z.to_nat Pos.to_nat Pos.iter_op
             String.substring].
        simpl. destruct s; reflexivity.
      * simpl. reflexivity.
  - unfold fileNameOf. destruct (Hlast path) as (name & -> & Hname).
    cbn [JSString.orElse]. destruct (JSString.truthy name); [exact Hname|].
    reflexivity.
Qed.

(** ** More on the package stage *)

Lemma manifestStep_declared basePath manifest el :
  manifestStep basePath manifest el
  = match declaredItem basePath el with
    | Some item => JSObject.set (EpubManifestItem.id item) item manifest
    | None => manifest
    end.
Proof.
  unfold manifestStep, declaredItem.
  destruct (DOM.getAttribute (snd el) "id") as [i|]; [|reflexivity].
  destruct (DOM.getAttribute (snd el) "href") as [h|]; [|reflexivity].
  destruct (DOM.getAttribute (snd el) "media-type") as [m|]; [|reflexivity].
  destruct (_ && _); reflexivity.
Qed.

Lemma last_cons_or {A : Type} (x : A) l :
  last (x :: l) = match last l with Some y => Some y | None => Some x end.
Proof.
  destruct l as [|y l]; [reflexivity|].
  change (last (x :: y :: l)) with (last (y :: l)).
  destruct (last (y :: l)) eqn:Hl; [reflexivity|].
  exfalso. revert y Hl. induction l as [|z l IH]; intros y Hl; [discriminate|].
  exact (IH z Hl).
Qed.

(** What the loop of [parseManifest] leaves under an id: the last item
    declared under it, or what was there before. *)
Lemma manifest_loop_last basePath items acc id :
  JSObject.get (fold_left (manifestStep basePath) items acc) id
  = match last (List.filter
                  (fun item => String.eqb (EpubManifestItem.id item) id)
                  (omap (declaredItem basePath) items)) with
    | Some item => Some item
    | None => JSObject.get acc id
    end.
Proof.
  revert acc. induction items as [|el items IH]; intros acc; [reflexivity|].
  cbn [fold_left omap list_omap]. rewrite IH, manifestStep_declared.
  destruct (declaredItem basePath el) as [item|]; [|reflexivity].
  cbn [List.filter]. rewrite get_set.
  destruct (String.eqb (EpubManifestItem.id item) id).
  - rewrite last_cons_or. destruct (last _); reflexivity.
  - reflexivity.
Qed.

Lemma last_In {A : Type} (l : list A) x : last l = Some x -> In x l.
Proof.
  induction l as [|y l IH]; [discriminate|].
  rewrite last_cons_or. destruct (last l) as [z|].
  - intros [= ->]. right. apply IH. reflexivity.
  - intros [= ->]. left. reflexivity.
Qed.

Lemma declaredItem_attributes basePath el item :
  declaredItem basePath el = Some item ->
  exists href,
    DOM.getAttribute (snd el) "id" = Some (EpubManifestItem.id item)
    /\ DOM.getAttribute (snd el) "href" = Some href
    /\ DOM.getAttribute (snd el) "media-type"
       = Some (EpubManifestItem.mediaType item)
    /\ JSString.truthy (EpubManifestItem.id item) = true
    /\ JSString.truthy href = true
    /\ JSString.truthy (EpubManifestItem.mediaType item) = true
    /\ EpubManifestItem.href item = resolveRelativePath href basePath.
Proof.
  unfold declaredItem.
  destruct (DOM.getAttribute (snd el) "id") as [i|]; [|discriminate].
  destruct (DOM.getAttribute (snd el) "href") as [h|]; [|discriminate].
  destruct (DOM.getAttribute (snd el) "media-type") as [m|]; [|discriminate].
  destruct (JSString.truthy i) eqn:Hi; [|discriminate].
  destruct (JSString.truthy h) eqn:Hh; [|discriminate].
  destruct (JSString.truthy m) eqn:Hm; [|discriminate].
  intros [= <-]. exists h. cbn. tauto.
Qed.

(** X5. Every entry of the manifest comes from an [item] element that
    carries the three attributes, all non-empty: the key is the element's
    [id] and the id of the stored item, the media type is the element's,
    and the href is the element's [href] resolved against the base. *)
Theorem parseManifest_entry_declared (opfDoc : Document) (basePath id : string)
  (item : EpubManifestItem.t) :
  JSObject.get (parseManifest opfDoc basePath) id = Some item ->
  exists el href,
    In el (manifestItemElements opfDoc)
    /\ DOM.getAttribute (snd el) "id" = Some id
    /\ DOM.getAttribute (snd el) "href" = Some href
    /\ DOM.getAttribute (snd el) "media-type"
       = Some (EpubManifestItem.mediaType item)
    /\ JSString.truthy id = true
    /\ JSString.truthy href = true
    /\ JSString.truthy (EpubManifestItem.mediaType item) = true
    /\ EpubManifestItem.id item = id
    /\ EpubManifestItem.href item = resolveRelativePath href basePath.
Proof.
  unfold parseManifest. fold (manifestItemElements opfDoc).
  rewrite manifest_loop_last.
  destruct (last _) as [found|] eqn:Hlast; [|discriminate].
  intros [= ->]. apply last_In, filter_In in Hlast as [Hin Hid].
  apply String.eqb_eq in Hid.
  apply list_elem_of_In, list_elem_of_omap in Hin as (el & Hel & Hdecl).
  apply declaredItem_attributes in Hdecl
    as (href & Ha & Hb & Hc & Hd & He & Hf & Hg).
  exists el, href. rewrite Hid in *. apply list_elem_of_In in Hel. tauto.
Qed.

(** X5 on the entry [img1] of [opfCoverProperty]. *)
Lemma parseManifest_entry_declared_witness :
  exists el href,
    In el (manifestItemElements opfCoverProperty)
    /\ DOM.getAttribute (snd el) "id" = Some "img1"
    /\ DOM.getAttribute (snd el) "href" = Some href
    /\ DOM.getAttribute (snd el) "media-type" = Some "image/jpeg"
    /\ JSString.truthy "img1" = true
    /\ JSString.truthy href = true
    /\ JSString.truthy "image/jpeg" = true
    /\ "img1" = "img1"
    /\ "images/front.jpg" = resolveRelativePath href "".
Proof.
  apply (parseManifest_entry_declared opfCoverProperty "" "img1"
           (EpubManifestItem.mk "img1" "images/front.jpg" "image/jpeg")).
  reflexivity.
Defined.

Lemma parseManifest_get_last opfDoc basePath id :
  JSObject.get (parseManifest opfDoc basePath) id
  = last (declaredUnder basePath opfDoc id).
Proof.
  unfold parseManifest, declaredUnder. fold (manifestItemElements opfDoc).
  rewrite manifest_loop_last. destruct (last _); reflexivity.
Qed.

(** X6. On duplicate ids the last writer wins, and an item declared under
    the id [__proto__] becomes the prototype of the manifest, not one of
    its properties.  A read [manifest[id]] yields the last item that the
    document declares under [id]; when no complete [item] element declares
    that id, the read yields what the prototype chain provides under the
    name (a field of the last item declared under [__proto__], or a
    function of [Object.prototype]) and otherwise nothing.  And
    [Object.values(manifest)] holds exactly the items that are the last one
    declared under their id, that id not being [__proto__]. *)
Theorem parseManifest_last_writer_wins (opfDoc : Document)
  (basePath : string) :
  let manifest := parseManifest opfDoc basePath in
  (forall id,
      readManifest manifest id
      = match last (declaredUnder basePath opfDoc id) with
        | Some item => Some (ItemValue item)
        | None =>
            inheritedValue (last (declaredUnder basePath opfDoc "__proto__")) id
        end)
  /\ (forall item,
        In item (JSObject.ownValues manifest)
        <-> EpubManifestItem.id item <> "__proto__"
            /\ last (declaredUnder basePath opfDoc (EpubManifestItem.id item))
               = Some item).
Proof.
  intros manifest. split.
  - intros id. unfold readManifest, manifest.
    rewrite !parseManifest_get_last. destruct (last _); reflexivity.
  - intros item.
    destruct (parseManifest_wellKeyed opfDoc basePath) as [Hnd Hid].
    rewrite Forall_forall in Hid. fold manifest in Hnd, Hid.
    rewrite ownValues_In. split.
    + intros (k & Hin & Hk).
      pose proof (Hid (k, item) (proj2 (list_elem_of_In _ _) Hin)) as Hkey.
      cbn [fst snd] in Hkey. subst k. split; [exact Hk|].
      rewrite <- parseManifest_get_last. exact (In_get _ _ _ Hnd Hin).
    + intros [Hk Hlast]. exists (EpubManifestItem.id item). split; [|exact Hk].
      apply get_In. unfold manifest. rewrite parseManifest_get_last.
      exact Hlast.
Qed.

Lemma textOf_truthy el text :
  textOf el = Some text -> JSString.truthy text = true.
Proof.
  unfold textOf. destruct el as [e|]; [|discriminate].
  destruct (JSString.truthy (DOM.textContent (snd e))) eqn:Ht; [|discriminate].
  intros [= <-]. exact Ht.
Qed.

Lemma textOf_present el : presentField (textOf el) = true.
Proof.
  destruct (textOf el) as [text|] eqn:Ht; [|reflexivity].
  exact (textOf_truthy _ _ Ht).
Qed.

(** X7. No field of the metadata is ever the empty string: a field is
    absent or holds a non-empty text, also when the document has no
    metadata element. *)
Theorem parseMetadata_fields_present (opfDoc : Document) :
  forallb presentField (metadataFields (parseMetadata opfDoc)) = true.
Proof.
  unfold parseMetadata.
  destruct (DOM.docQuerySelector opfDoc _) as [metadataEl|]; [|reflexivity].
  unfold metadataFields.
  cbn [EpubMetadata.title EpubMetadata.creator EpubMetadata.publisher
       EpubMetadata.language EpubMetadata.identifier EpubMetadata.description
       EpubMetadata.published EpubMetadata.modified EpubMetadata.rights
       forallb].
  rewrite !textOf_present. reflexivity.
Qed.

(** X8. The reading order holds non-empty ids only: an [itemref] without
    an [idref], or with an empty one, contributes nothing. *)
Theorem parseSpine_items_nonempty (opfDoc : Document) :
  forallb JSString.truthy (EpubSpine.items (parseSpine opfDoc)) = true.
Proof.
  unfold parseSpine.
  destruct (DOM.docQuerySelector opfDoc _) as [spineEl|]; [|reflexivity].
  cbn [EpubSpine.items].
  induction (DOM.querySelectorAll spineEl _) as [|el l IH]; [reflexivity|].
  cbn [List.flat_map]. rewrite forallb_app, IH, andb_true_r.
  destruct (DOM.getAttribute (snd el) "idref") as [idref|]; [|reflexivity].
  destruct (JSString.truthy idref) eqn:Ht; [|reflexivity].
  cbn [forallb]. rewrite Ht. reflexivity.
Qed.

(** ** More on the navigation stage *)

Lemma Node_nested_ind (P : Node -> Prop) :
  (forall nm attrs cs, Forall P cs -> P (Element nm attrs cs)) ->
  (forall d, P (Text d)) ->
  (forall d, P (Other d)) ->
  forall n, P n.
Proof.
  intros HE HT HO. fix IH 1. intros [nm attrs cs|d|d].
  - apply HE. induction cs as [|c cs IHcs]; constructor.
    + apply IH.
    + exact IHcs.
  - apply HT.
  - apply HO.
Qed.

Lemma parseNavPoint_wellLabelled element :
  forall ancestors p,
    parseNavPoint ancestors element = Some p -> wellLabelled p = true.
Proof.
  induction element as [nm attrs cs IH|d|d] using Node_nested_ind;
    intros ancestors p; [|discriminate..].
  cbn [parseNavPoint].
  destruct (DOM.getAttribute _ "id") as [id|]; [|discriminate].
  destruct (textOf _) as [label|] eqn:Hlabel; [|discriminate].
  destruct (DOM.querySelector _ (DOM.Single _)) as [contentEl|]; [|discriminate].
  destruct (JSString.truthy id) eqn:Hid; [|discriminate].
  intros [= <-]. cbn [wellLabelled].
  rewrite Hid, (textOf_truthy _ _ Hlabel). cbn [andb]. clear Hlabel.
  match goal with
  | |- forallb _ ?children = true =>
      assert (Hkids :
        children
        = omap (parseNavPoint (nm :: ancestors))
            (List.filter (DOM.matchesCompound (DOM.TypeSel "navPoint")) cs))
        by exact (flat_map_filter_omap _ _ cs);
      rewrite Hkids
  end.
  apply forallb_forall. intros child Hin.
  apply list_elem_of_In, list_elem_of_omap in Hin as (c & Hc & Hchild).
  apply list_elem_of_In, filter_In in Hc as [Hc _].
  rewrite Forall_forall in IH.
  exact (IH c (proj2 (list_elem_of_In _ _) Hc) _ _ Hchild).
Qed.

Lemma collected_wellLabelled ncxDoc :
  Forall (fun p => wellLabelled p = true) (collectedNavPoints ncxDoc).
Proof.
  unfold collectedNavPoints.
  destruct (DOM.docQuerySelector ncxDoc _) as [navMap|]; [|constructor].
  induction (DOM.querySelectorAll navMap _) as [|el l IH]; [constructor|].
  cbn [List.flat_map]. apply Forall_app. split; [|exact IH].
  destruct (parseNavPoint (fst el) (snd el)) as [p|] eqn:Hp; [|constructor].
  constructor; [|constructor]. exact (parseNavPoint_wellLabelled _ _ _ Hp).
Qed.

(** X9. Every point of the navigation forest, at every depth, has a
    non-empty id and a non-empty label. *)
Theorem parseNavPoints_wellLabelled (ncxDoc : Document) :
  forallb wellLabelled (parseNavPoints ncxDoc) = true.
Proof.
  apply forallb_forall. intros p Hin.
  change (parseNavPoints ncxDoc)
    with (arraySort byOrder (collectedNavPoints ncxDoc)) in Hin.
  pose proof (collected_wellLabelled ncxDoc) as Hall.
  rewrite Forall_forall in Hall. apply Hall, list_elem_of_In.
  eapply Permutation_in; [apply arraySort_permutation|exact Hin].
Qed.

Lemma orderLe_trans a b c : orderLe a b -> orderLe b c -> orderLe a c.
Proof.
  unfold orderLe.
  destruct (EpubNavPoint.order a), (EpubNavPoint.order b),
    (EpubNavPoint.order c); simpl; try discriminate.
  rewrite !Z.leb_le. lia.
Qed.

Lemma filter_all_false {A : Type} (f : A -> bool) l :
  (forall x, In x l -> f x = false) -> List.filter f l = [].
Proof.
  induction l as [|x l IH]; intros H; [reflexivity|].
  cbn [List.filter]. rewrite (H x (or_introl eq_refl)).
  apply IH. intros y Hy. apply H. right. exact Hy.
Qed.

(** Inserting a point changes the points of a given order only by
    putting the new point behind them, if it has that order. *)
Lemma filter_sortInsert v x l :
  numericOrder x = true ->
  Forall (fun p => numericOrder p = true) l ->
  Sorted orderLe l ->
  List.filter (orderIs v) (sortInsert byOrder x l)
  = List.filter (orderIs v) l ++ (if orderIs v x then [x] else []).
Proof.
  intros Hx Hall Hs. induction Hs as [|y l Hs IH Hhd].
  - simpl. destruct (orderIs v x); reflexivity.
  - inversion Hall as [|? ? Hy Hl]; subst.
    assert (Hext : Forall (orderLe y) l).
    { apply Sorted_extends; [|constructor; assumption].
      intros a b c. apply orderLe_trans. }
    cbn [sortInsert]. unfold numericOrder in Hx, Hy. unfold byOrder at 1.
    destruct (EpubNavPoint.order y) as [oy|] eqn:Ey; [|discriminate].
    destruct (EpubNavPoint.order x) as [ox|] eqn:Ex; [|discriminate].
    cbn [JSNumber.sub JSNumber.positive].
    destruct (Z.ltb_spec 0 (oy - ox)) as [Hlt|Hge].
    + cbn [List.filter]. destruct (orderIs v x) eqn:Hvx;
        [|rewrite app_nil_r; reflexivity].
      unfold orderIs in Hvx. rewrite Ex in Hvx. apply Z.eqb_eq in Hvx.
      assert (Hnone : List.filter (orderIs v) (y :: l) = []).
      { apply filter_all_false. intros p [<-|Hp].
        - unfold orderIs. rewrite Ey. apply Z.eqb_neq. lia.
        - rewrite Forall_forall in Hext.
          specialize (Hext p (proj2 (list_elem_of_In _ _) Hp)).
          unfold orderLe in Hext. rewrite Ey in Hext.
          unfold orderIs. destruct (EpubNavPoint.order p) as [op|];
            [|reflexivity].
          simpl in Hext. apply Z.leb_le in Hext.
          apply Z.eqb_neq. lia. }
      cbn [List.filter] in Hnone. rewrite Hnone. reflexivity.
    + cbn [List.filter]. rewrite (IH Hl).
      destruct (orderIs v y); [rewrite <- app_comm_cons|]; reflexivity.
Qed.

Lemma sort_loop_stable v l acc :
  Forall (fun p => numericOrder p = true) l ->
  Forall (fun p => numericOrder p = true) acc ->
  Sorted orderLe acc ->
  List.filter (orderIs v)
    (fold_left (fun acc x => sortInsert byOrder x acc) l acc)
  = List.filter (orderIs v) acc ++ List.filter (orderIs v) l.
Proof.
  intros Hl. revert acc.
  induction Hl as [|x l Hx Hl IH]; intros acc Hacc Hs.
  - simpl. rewrite app_nil_r. reflexivity.
  - cbn [fold_left]. rewrite IH.
    + rewrite filter_sortInsert by assumption. cbn [List.filter].
      rewrite <- app_assoc. destruct (orderIs v x); reflexivity.
    + rewrite sortInsert_permutation. constructor; assumption.
    + apply sortInsert_sorted; assumption.
Qed.

(** X10. When the order of every point is a number, the forest is the
    stable sort of the points in document order: it is ascending by order,
    and the points of any one order come in document order. *)
Theorem parseNavPoints_stable_sort (ncxDoc : Document) :
  Forall (fun p => numericOrder p = true) (collectedNavPoints ncxDoc) ->
  ascendingByOrder (parseNavPoints ncxDoc) = true
  /\ forall v,
       List.filter (orderIs v) (parseNavPoints ncxDoc)
       = List.filter (orderIs v) (collectedNavPoints ncxDoc).
Proof.
  intros Hall.
  change (parseNavPoints ncxDoc)
    with (arraySort byOrder (collectedNavPoints ncxDoc)).
  split.
  - apply arraySort_ascending. exact Hall.
  - intros v. unfold arraySort.
    rewrite sort_loop_stable; [reflexivity|exact Hall|constructor|constructor].
Qed.

(** X10 on the document with source order 3, 1, 2. *)
Lemma parseNavPoints_stable_sort_witness :
  ascendingByOrder (parseNavPoints ncxShuffled) = true
  /\ forall v,
       List.filter (orderIs v) (parseNavPoints ncxShuffled)
       = List.filter (orderIs v) (collectedNavPoints ncxShuffled).
Proof.
  apply (parseNavPoints_stable_sort ncxShuffled).
  vm_compute. repeat constructor.
Defined.

(** X11. The order of a point whose [playOrder] attribute is a numeral of
    value at most 2^53, the range in which a double holds every integer, is
    the integer that the numeral denotes. *)
Theorem playOrder_numeral_is_order (ancestors : list string) (element : Node)
  (p : EpubNavPoint.t) (playOrder : string) :
  parseNavPoint ancestors element = Some p ->
  DOM.getAttribute element "playOrder" = Some playOrder ->
  isNumeral playOrder = true ->
  numeralValue playOrder <= 2 ^ 53 ->
  EpubNavPoint.order p = Num (numeralValue playOrder).
Proof.
  intros Hparse Hattr Hnum _.
  rewrite (parseNavPoint_order _ _ _ Hparse), Hattr.
  rewrite (parseInt10_numeral _ Hnum).
  unfold isNumeral in Hnum. apply andb_true_iff in Hnum as [-> _].
  reflexivity.
Qed.

(** X11 at a point with [playOrder="007"]. *)
Lemma playOrder_numeral_is_order_witness :
  EpubNavPoint.order
    (EpubNavPoint.mk "intro" "intro" "intro.xhtml" (Num 7) [])
  = Num (numeralValue "007").
Proof.
  apply (playOrder_numeral_is_order ["navMap"; "ncx"]
           (navPointElement "intro" "007" [])
           (EpubNavPoint.mk "intro" "intro" "intro.xhtml" (Num 7) []) "007");
    [reflexivity|reflexivity|reflexivity|vm_compute; discriminate].
Defined.

(** ** More on cover resolution *)

(** X12. The cover path, when there is one, is the href of an entry of the
    manifest: no strategy invents a path. *)
Theorem findCoverPath_in_manifest (opfDoc : Document) (manifest : Manifest)
  (coverPath : string) :
  findCoverPath opfDoc manifest = Some coverPath ->
  exists id item,
    In (id, item) manifest /\ EpubManifestItem.href item = coverPath.
Proof.
  assert (Hread : forall id found,
             readManifest manifest id = Some found ->
             valueHref found = Some coverPath ->
             exists id item,
               In (id, item) manifest /\ EpubManifestItem.href item = coverPath).
  { intros id found Hr Hh.
    destruct (readManifest_href _ _ _ _ Hr Hh) as (item & Hget & Hitem).
    exists id, item. split; [exact (get_In _ _ _ Hget)|exact Hitem]. }
  unfold findCoverPath.
  match goal with
  | |- match ?strategy with Some _ => _ | None => _ end = _ -> _ =>
      destruct strategy as [returned|] eqn:Hmeta
  end.
  { intros ->.
    destruct (DOM.docQuerySelector opfDoc _) as [coverMeta|]; [|discriminate].
    destruct (DOM.getAttribute (snd coverMeta) "content") as [coverId|];
      [|discriminate].
    destruct (JSString.truthy coverId); [|discriminate].
    destruct (readManifest manifest coverId) as [found|] eqn:Hr; [|discriminate].
    destruct (valueTruthy found); [|discriminate].
    injection Hmeta as Hmeta. exact (Hread _ _ Hr Hmeta). }
  match goal with
  | |- match ?strategy with Some _ => _ | None => _ end = _ -> _ =>
      destruct strategy as [returned|] eqn:Hlit
  end.
  { intros ->. apply forOf_Some in Hlit as (id & _ & Hid).
    destruct (readManifest manifest id) as [found|] eqn:Hr; [|discriminate].
    destruct (valueTruthy found); [|discriminate].
    destruct (valueMediaType found) as [mediaType|]; [|discriminate].
    destruct (isImageType mediaType); [|discriminate].
    injection Hid as Hid. exact (Hread _ _ Hr Hid). }
  match goal with
  | |- match ?strategy with Some _ => _ | None => _ end = _ -> _ =>
      destruct strategy as [returned|] eqn:Hprop
  end.
  { intros ->. apply forOf_Some in Hprop as (el & _ & Hel).
    destruct (DOM.getAttribute (snd el) "id") as [id|]; [|discriminate].
    destruct (JSString.truthy id); [|discriminate].
    destruct (readManifest manifest id) as [found|] eqn:Hr; [|discriminate].
    destruct (valueTruthy found); [|discriminate].
    injection Hel as Hel. exact (Hread _ _ Hr Hel). }
  intros Hname. apply forOf_Some in Hname as (item & Hin & Hitem).
  destruct (_ && _); [|discriminate]. injection Hitem as Hitem.
  apply ownValues_In in Hin as (id & Hin & _).
  exists id, item. split; [exact Hin|exact Hitem].
Qed.

(** X12 on the cover example. *)
Lemma findCoverPath_in_manifest_witness :
  exists id item,
    In (id, item) (parseManifest opfCoverProperty "")
    /\ EpubManifestItem.href item = "images/front.jpg".
Proof.
  apply (findCoverPath_in_manifest opfCoverProperty
           (parseManifest opfCoverProperty "") "images/front.jpg").
  reflexivity.
Defined.

(** ** The markup rewriting of [processHtml] *)

Lemma lookup_setAttr attrs k v k' :
  DOM.lookupAttr (DOM.setAttr k v attrs) k'
  = if String.eqb k k' then Some v else DOM.lookupAttr attrs k'.
Proof.
  induction attrs as [|[k0 v0] attrs IH]; simpl.
  - reflexivity.
  - destruct (String.eqb_spec k0 k) as [->|Hne]; simpl.
    + destruct (String.eqb k k'); reflexivity.
    + rewrite IH. destruct (String.eqb_spec k0 k') as [->|Hne'].
      * destruct (String.eqb_spec k k') as [->|_]; congruence.
      * reflexivity.
Qed.

Lemma setAttr_same attrs k v :
  DOM.lookupAttr attrs k = Some v -> DOM.setAttr k v attrs = attrs.
Proof.
  induction attrs as [|[k0 v0] attrs IH]; simpl; [discriminate|].
  destruct (String.eqb k0 k).
  - intros [= ->]. reflexivity.
  - intros H. rewrite (IH H). reflexivity.
Qed.

Lemma append_assoc_char (cur : string) c t :
  (cur +:+ String c "") +:+ t = cur +:+ String c t.
Proof.
  induction cur as [|a cur IH]; [reflexivity|].
  rewrite !append_cons, IH. reflexivity.
Qed.

Lemma spaceFree_append_char cur c :
  spaceFree cur = true -> isTokenSpace c = false ->
  spaceFree (cur +:+ String c "") = true.
Proof.
  intros Hcur Hc. induction cur as [|a cur IH].
  - change ("" +:+ String c "") with (String c ""). simpl. rewrite Hc.
    reflexivity.
  - rewrite append_cons. simpl in *.
    apply andb_true_iff in Hcur as [-> Hcur]. exact (IH Hcur).
Qed.

Lemma tokensFrom_append cur t rest :
  spaceFree t = true ->
  tokensFrom cur (t +:+ rest) = tokensFrom (cur +:+ t) rest.
Proof.
  revert cur. induction t as [|c t IH]; intros cur Ht.
  - change ("" +:+ rest) with rest. rewrite append_empty_r. reflexivity.
  - simpl in Ht. apply andb_true_iff in Ht as [Hc Ht].
    apply negb_true_iff in Hc.
    rewrite append_cons. cbn [tokensFrom]. rewrite Hc, (IH _ Ht).
    rewrite append_assoc_char. reflexivity.
Qed.

Lemma tokensFrom_good cur rest :
  spaceFree cur = true ->
  Forall (fun t => goodToken t = true) (tokensFrom cur rest).
Proof.
  revert cur. induction rest as [|c rest IH]; intros cur Hcur.
  - cbn [tokensFrom]. destruct (JSString.truthy cur) eqn:Ht; [|constructor].
    repeat constructor. unfold goodToken. rewrite Ht, Hcur. reflexivity.
  - cbn [tokensFrom]. destruct (isTokenSpace c) eqn:Hc.
    + apply Forall_app. split; [|apply IH; reflexivity].
      destruct (JSString.truthy cur) eqn:Ht; [|constructor].
      repeat constructor. unfold goodToken. rewrite Ht, Hcur. reflexivity.
    + apply IH. apply spaceFree_append_char; assumption.
Qed.

(** Reading back a class attribute that was written from tokens gives the
    tokens. *)
Lemma tokensFrom_join tokens :
  Forall (fun t => goodToken t = true) tokens ->
  tokensFrom "" (JSString.join " " tokens) = tokens.
Proof.
  intros Hall. induction Hall as [|t l Ht Hl IH]; [reflexivity|].
  unfold goodToken in Ht. apply andb_true_iff in Ht as [Htruthy Hfree].
  destruct l as [|u l].
  - simpl JSString.join.
    transitivity (tokensFrom "" (t +:+ ""));
      [rewrite append_empty_r; reflexivity|].
    rewrite (tokensFrom_append _ _ _ Hfree).
    change ("" +:+ t) with t. cbn [tokensFrom]. rewrite Htruthy. reflexivity.
  - rewrite join_cons, (tokensFrom_append _ _ _ Hfree).
    change ("" +:+ t) with t.
    change (" " +:+ ?r) with (String " "%char r).
    cbn [tokensFrom]. change (isTokenSpace " ") with true. cbn iota.
    rewrite Htruthy, IH. reflexivity.
Qed.

Lemma existsb_eqb_not_In token (set : list string) :
  ~ In token set -> existsb (String.eqb token) set = false.
Proof.
  induction set as [|x set IH]; [reflexivity|].
  intros Hnot. cbn [existsb].
  destruct (String.eqb_spec token x) as [->|_].
  - exfalso. apply Hnot. left. reflexivity.
  - apply IH. intros Hin. apply Hnot. right. exact Hin.
Qed.

Lemma existsb_eqb_In_true token (set : list string) :
  In token set -> existsb (String.eqb token) set = true.
Proof.
  induction set as [|x set IH]; [intros []|].
  intros [->|Hin]; cbn [existsb].
  - rewrite String.eqb_refl. reflexivity.
  - rewrite (IH Hin). apply orb_true_r.
Qed.

Lemma appendToken_NoDup set token :
  List.NoDup set -> List.NoDup (appendToken set token).
Proof.
  intros Hnd. unfold appendToken.
  destruct (existsb (String.eqb token) set) eqn:Hex; [exact Hnd|].
  apply NoDup_ListNoDup, NoDup_app. apply NoDup_ListNoDup in Hnd.
  split; [exact Hnd|]. split; [|apply NoDup_singleton].
  intros x Hx Hx'. apply list_elem_of_singleton in Hx'. subst x.
  apply list_elem_of_In in Hx. exact (existsb_eqb_In _ _ Hex Hx).
Qed.

Lemma appendToken_good set token :
  Forall (fun t => goodToken t = true) set -> goodToken token = true ->
  Forall (fun t => goodToken t = true) (appendToken set token).
Proof.
  intros Hset Htoken. unfold appendToken.
  destruct (existsb _ _); [exact Hset|].
  apply Forall_app. split; [exact Hset|repeat constructor; exact Htoken].
Qed.

Lemma tokenSet_invariant tokens acc :
  Forall (fun t => goodToken t = true) tokens ->
  Forall (fun t => goodToken t = true) acc -> List.NoDup acc ->
  Forall (fun t => goodToken t = true) (fold_left appendToken tokens acc)
  /\ List.NoDup (fold_left appendToken tokens acc).
Proof.
  intros Htokens. revert acc.
  induction Htokens as [|t l Ht _ IH]; intros acc Hacc Hnd; [tauto|].
  cbn [fold_left]. apply IH.
  - apply appendToken_good; assumption.
  - apply appendToken_NoDup. exact Hnd.
Qed.

Lemma fold_appendToken_distinct tokens acc :
  List.NoDup (acc ++ tokens) ->
  fold_left appendToken tokens acc = acc ++ tokens.
Proof.
  revert acc. induction tokens as [|t l IH]; intros acc Hnd.
  - rewrite app_nil_r. reflexivity.
  - cbn [fold_left]. unfold appendToken at 2.
    rewrite existsb_eqb_not_In.
    + rewrite IH; rewrite <- app_assoc; [reflexivity|exact Hnd].
    + apply NoDup_remove_2 in Hnd. intros Hin. apply Hnd.
      apply in_or_app. left. exact Hin.
Qed.

(** The token set of a class attribute written from a token set is that
    token set. *)
Lemma classTokens_join tokens :
  Forall (fun t => goodToken t = true) tokens -> List.NoDup tokens ->
  classTokens (JSString.join " " tokens) = tokens.
Proof.
  intros Hgood Hnd. unfold classTokens. rewrite (tokensFrom_join _ Hgood).
  apply (fold_appendToken_distinct tokens []). exact Hnd.
Qed.

Lemma classTokensOf_invariant attrs :
  Forall (fun t => goodToken t = true) (classTokensOf attrs)
  /\ List.NoDup (classTokensOf attrs).
Proof.
  unfold classTokensOf, classTokens.
  destruct (DOM.lookupAttr attrs "class") as [value|];
    [|split; constructor].
  apply tokenSet_invariant; [apply tokensFrom_good; reflexivity| |];
    constructor.
Qed.

(** The class attribute after [classList.add]. *)
Lemma classListAdd_tokens token attrs :
  goodToken token = true ->
  classTokensOf (classListAdd token attrs)
  = appendToken (classTokensOf attrs) token.
Proof.
  intros Htoken. destruct (classTokensOf_invariant attrs) as [Hgood Hnd].
  unfold classTokensOf at 1, classListAdd. rewrite lookup_setAttr.
  rewrite String.eqb_refl.
  change (match DOM.lookupAttr attrs "class" with
          | Some v => fold_left appendToken (tokensFrom "" v) []
          | None => []
          end) with (classTokensOf attrs).
  apply classTokens_join.
  - apply appendToken_good; assumption.
  - apply appendToken_NoDup. exact Hnd.
Qed.

(** X13. The rewriting of [processHtml] changes attributes only: element
    names, nesting and character data are untouched, and so is the text
    content of every node. *)
Theorem rewriteNode_keeps_structure (n : Node) :
  eraseAttributes (rewriteNode n) = eraseAttributes n
  /\ DOM.textContent (rewriteNode n) = DOM.textContent n.
Proof.
  induction n as [nm attrs cs IH|d|d] using Node_nested_ind;
    [|split; reflexivity..].
  cbn [rewriteNode eraseAttributes DOM.textContent]. rewrite !List.map_map.
  split; f_equal.
  - apply List.map_ext_in. intros c Hc. rewrite Forall_forall in IH.
    apply (IH c), list_elem_of_In, Hc.
  - apply List.map_ext_in. intros c Hc. rewrite Forall_forall in IH.
    apply (IH c), list_elem_of_In, Hc.
Qed.

Lemma lookup_classListAdd token attrs k :
  String.eqb k "class" = false ->
  DOM.lookupAttr (classListAdd token attrs) k = DOM.lookupAttr attrs k.
Proof.
  intros Hk. unfold classListAdd. rewrite lookup_setAttr.
  rewrite String.eqb_sym, Hk. reflexivity.
Qed.

(** X14. An image whose [src] is not empty and does not start with [http]
    keeps its [src], gets the same value under [data-original-src], and
    gets the class [epub-image] added to the classes it had. *)
Theorem image_annotated (attrs : list (string * string)) (src : string) :
  DOM.lookupAttr attrs "src" = Some src ->
  JSString.truthy src = true ->
  JSString.startsWith src "http" = false ->
  DOM.lookupAttr (rewriteAttributes "img" attrs) "src" = Some src
  /\ DOM.lookupAttr (rewriteAttributes "img" attrs) "data-original-src"
     = Some src
  /\ classTokensOf (rewriteAttributes "img" attrs)
     = appendToken (classTokensOf attrs) "epub-image".
Proof.
  intros Hsrc Htruthy Hhttp. unfold rewriteAttributes.
  rewrite String.eqb_refl, Hsrc, Htruthy, Hhttp. cbn [negb andb].
  repeat split.
  - rewrite lookup_classListAdd, lookup_setAttr by reflexivity.
    cbn [String.eqb Ascii.eqb Bool.eqb]. exact Hsrc.
  - rewrite lookup_classListAdd, lookup_setAttr by reflexivity.
    rewrite String.eqb_refl. reflexivity.
  - rewrite classListAdd_tokens by reflexivity. f_equal.
    unfold classTokensOf. rewrite lookup_setAttr.
    cbn [String.eqb Ascii.eqb Bool.eqb]. reflexivity.
Qed.

(** X14 on an image that already has two classes. *)
Lemma image_annotated_witness :
  DOM.lookupAttr
    (rewriteAttributes "img" [("class", "wide  left"); ("src", "../images/a.png")])
    "src" = Some "../images/a.png"
  /\ DOM.lookupAttr
       (rewriteAttributes "img" [("class", "wide  left"); ("src", "../images/a.png")])
       "data-original-src" = Some "../images/a.png"
  /\ classTokensOf
       (rewriteAttributes "img" [("class", "wide  left"); ("src", "../images/a.png")])
     = appendToken
         (classTokensOf [("class", "wide  left"); ("src", "../images/a.png")])
         "epub-image".
Proof.
  apply (image_annotated
           [("class", "wide  left"); ("src", "../images/a.png")]
           "../images/a.png"); reflexivity.
Defined.

(** X15. The rewriting never touches an attribute other than [class],
    [data-original-src] and [data-original-href]: on every element, every
    other attribute reads as before. *)
Theorem rewriteAttributes_keeps_others (nm : string)
  (attrs : list (string * string)) (name : string) :
  writtenAttribute name = false ->
  DOM.lookupAttr (rewriteAttributes nm attrs) name = DOM.lookupAttr attrs name.
Proof.
  unfold writtenAttribute. intros Hname.
  apply orb_false_iff in Hname as [Hname Hhref].
  apply orb_false_iff in Hname as [Hclass Hsrc].
  unfold rewriteAttributes.
  destruct (String.eqb nm "img").
  - destruct (DOM.lookupAttr attrs "src") as [src|]; [|reflexivity].
    destruct (_ && _); [|reflexivity].
    rewrite (lookup_classListAdd _ _ _ Hclass), lookup_setAttr.
    rewrite String.eqb_sym, Hsrc. reflexivity.
  - destruct (DOM.matchesCompound _ _); [|reflexivity].
    destruct (DOM.lookupAttr attrs "href") as [href|]; [|reflexivity].
    destruct (_ && _); [|reflexivity].
    rewrite lookup_setAttr, String.eqb_sym, Hhref. reflexivity.
Qed.

(** X15 on the [alt] attribute of an image. *)
Lemma rewriteAttributes_keeps_others_witness :
  DOM.lookupAttr
    (rewriteAttributes "img" [("src", "a.png"); ("alt", "A figure")]) "alt"
  = DOM.lookupAttr [("src", "a.png"); ("alt", "A figure")] "alt".
Proof.
  apply (rewriteAttributes_keeps_others "img"
           [("src", "a.png"); ("alt", "A figure")] "alt").
  reflexivity.
Defined.

Lemma appendToken_present set token :
  In token set -> appendToken set token = set.
Proof.
  intros Hin. unfold appendToken. rewrite (existsb_eqb_In_true _ _ Hin).
  reflexivity.
Qed.

Lemma appendToken_In set token : In token (appendToken set token).
Proof.
  unfold appendToken. destruct (existsb (String.eqb token) set) eqn:Hex.
  - apply existsb_exists in Hex as (x & Hin & Heq).
    apply String.eqb_eq in Heq. subst x. exact Hin.
  - apply in_or_app. right. left. reflexivity.
Qed.

Lemma classListAdd_twice token attrs :
  goodToken token = true ->
  classListAdd token (classListAdd token attrs) = classListAdd token attrs.
Proof.
  intros Htoken.
  pose proof (classListAdd_tokens token attrs Htoken) as Htokens.
  unfold classListAdd at 1.
  change (match DOM.lookupAttr (classListAdd token attrs) "class" with
          | Some v => fold_left appendToken (tokensFrom "" v) []
          | None => []
          end) with (classTokensOf (classListAdd token attrs)).
  rewrite Htokens, (appendToken_present _ _ (appendToken_In _ _)).
  apply setAttr_same. unfold classListAdd. rewrite lookup_setAttr.
  rewrite String.eqb_refl.
  change (match DOM.lookupAttr attrs "class" with
          | Some v => fold_left appendToken (tokensFrom "" v) []
          | None => []
          end) with (classTokensOf attrs).
  reflexivity.
Qed.

Lemma rewriteAttributes_twice nm attrs :
  rewriteAttributes nm (rewriteAttributes nm attrs) = rewriteAttributes nm attrs.
Proof.
  unfold rewriteAttributes at 2.
  destruct (String.eqb nm "img") eqn:Himg.
  - destruct (DOM.lookupAttr attrs "src") as [src|] eqn:Hsrc.
    + destruct (JSString.truthy src && negb (JSString.startsWith src "http"))
        eqn:Hcond.
      * unfold rewriteAttributes. rewrite Himg.
        rewrite lookup_classListAdd, lookup_setAttr by reflexivity.
        cbn [String.eqb Ascii.eqb Bool.eqb]. rewrite Hsrc, Hcond.
        rewrite (setAttr_same (classListAdd _ _) "data-original-src" src).
        -- apply classListAdd_twice. reflexivity.
        -- rewrite lookup_classListAdd, lookup_setAttr by reflexivity.
           rewrite String.eqb_refl. reflexivity.
      * unfold rewriteAttributes. rewrite Himg, Hsrc, Hcond. reflexivity.
    + unfold rewriteAttributes. rewrite Himg, Hsrc. reflexivity.
  - destruct (DOM.matchesCompound _ (Element nm attrs [])) eqn:Hlink.
    + destruct (DOM.lookupAttr attrs "href") as [href|] eqn:Hhref.
      * destruct (JSString.truthy href && negb (JSString.startsWith href "http"))
          eqn:Hcond.
        -- unfold rewriteAttributes. rewrite Himg.
           assert (Hlink' :
             DOM.matchesCompound (DOM.AttrSel "link" "rel" "stylesheet")
               (Element nm (DOM.setAttr "data-original-href" href attrs) [])
             = true).
           { cbn [DOM.matchesCompound] in *. rewrite lookup_setAttr.
             cbn [String.eqb Ascii.eqb Bool.eqb]. exact Hlink. }
           rewrite Hlink', Hlink, lookup_setAttr.
           cbn [String.eqb Ascii.eqb Bool.eqb]. rewrite Hhref, Hcond.
           apply setAttr_same. rewrite lookup_setAttr, String.eqb_refl.
           reflexivity.
        -- unfold rewriteAttributes. rewrite Himg, Hlink, Hhref, Hcond.
           reflexivity.
      * unfold rewriteAttributes. rewrite Himg, Hlink, Hhref. reflexivity.
    + unfold rewriteAttributes. rewrite Himg, Hlink. reflexivity.
Qed.

(** X16. The rewriting is idempotent: markup that went through it once
    comes out of a second pass unchanged. *)
Theorem rewriteNode_idempotent (n : Node) :
  rewriteNode (rewriteNode n) = rewriteNode n.
Proof.
  induction n as [nm attrs cs IH|d|d] using Node_nested_ind;
    [|reflexivity..].
  cbn [rewriteNode]. rewrite rewriteAttributes_twice, List.map_map. f_equal.
  apply List.map_ext_in. intros c Hc. rewrite Forall_forall in IH.
  apply (IH c), list_elem_of_In, Hc.
Qed.

(** ** More on content assembly *)

(** What a successful parse went through, and what it returns. *)
Lemma parseEpub_success loadAsync parseXml serializeToString data model :
  parseEpub loadAsync parseXml serializeToString data = inr model ->
  exists zip containerXml rootfilePath opfContent,
    loadAsync data = inr zip
    /\ readString zip "META-INF/container.xml" = inr (Some containerXml)
    /\ JSString.truthy containerXml = true
    /\ rootfileOf (parseXml containerXml) = Some rootfilePath
    /\ JSString.truthy rootfilePath = true
    /\ readString zip rootfilePath = inr (Some opfContent)
    /\ JSString.truthy opfContent = true
    /\ EpubContent.metadata model = parseMetadata (parseXml opfContent)
    /\ EpubContent.spine model = parseSpine (parseXml opfContent)
    /\ EpubContent.manifest model
       = parseManifest (parseXml opfContent) (directoryOf rootfilePath)
    /\ EpubContent.basePath model = directoryOf rootfilePath
    /\ EpubContent.coverPath model
       = findCoverPath (parseXml opfContent) (EpubContent.manifest model)
    /\ (if JSString.truthyOpt (EpubContent.coverPath model) then
          readBytes zip (JSString.orElse (EpubContent.coverPath model) "")
          = inr (EpubContent.coverData model)
        else EpubContent.coverData model = None)
    /\ (JSObject.get (EpubContent.manifest model)
          (EpubSpine.toc (EpubContent.spine model)) = None ->
        EpubContent.navPoints model = [])
    /\ EpubContent.content model
       = fold_left
           (contentStep parseXml serializeToString zip
              (directoryOf rootfilePath) (EpubContent.manifest model))
           (JSObject.ownValues (EpubContent.manifest model)) ∅
    /\ EpubContent.resources model
       = fold_left (resourceStep zip)
           (JSObject.ownValues (EpubContent.manifest model)) ∅.
Proof.
  unfold parseEpub.
  destruct (loadAsync data) as [e|zip] eqn:Hload; [discriminate|].
  cbn [await].
  destruct (readString zip "META-INF/container.xml") as [e|[containerXml|]]
    eqn:Hcont; [discriminate| |discriminate].
  cbn [await JSString.truthyOpt JSString.orElse].
  destruct (JSString.truthy containerXml) eqn:Hct; [|discriminate].
  cbn [negb]. fold (rootfileOf (parseXml containerXml)).
  destruct (rootfileOf (parseXml containerXml)) as [rootfilePath|] eqn:Hroot;
    [|discriminate].
  cbn [JSString.truthyOpt JSString.orElse].
  destruct (JSString.truthy rootfilePath) eqn:Hrt; [|discriminate].
  cbn [negb].
  destruct (readString zip rootfilePath) as [e|[opfContent|]] eqn:Hopf;
    [discriminate| |discriminate].
  cbn [await JSString.truthyOpt JSString.orElse].
  destruct (JSString.truthy opfContent) eqn:Hot; [|discriminate].
  cbn [negb].
  set (opfDoc := parseXml opfContent).
  set (manifest := parseManifest opfDoc (directoryOf rootfilePath)).
  match goal with
  | |- await ?nav _ = _ -> _ =>
      assert (Hnav : JSObject.get manifest (EpubSpine.toc (parseSpine opfDoc))
                     = None -> nav = inr []);
      [|destruct nav as [e|navPoints]; [discriminate|]]
  end.
  { intros Hnone. rewrite (readManifest_absent _ _ Hnone). reflexivity. }
  cbn [await].
  assert (Hnav' : JSObject.get manifest (EpubSpine.toc (parseSpine opfDoc))
                  = None -> navPoints = []).
  { intros Hnone. specialize (Hnav Hnone). congruence. }
  clear Hnav.
  destruct (findCoverPath opfDoc manifest) as [coverPath|] eqn:Hcover;
    cbn [JSString.truthyOpt JSString.orElse].
  - destruct (JSString.truthy coverPath) eqn:Hcp.
    + destruct (readBytes zip coverPath) as [e|coverData] eqn:Hread;
        [discriminate|].
      cbn [await]. intros [= <-].
      exists zip, containerXml, rootfilePath, opfContent.
      cbn [EpubContent.metadata EpubContent.spine EpubContent.manifest
           EpubContent.navPoints EpubContent.coverPath EpubContent.coverData
           EpubContent.content EpubContent.resources EpubContent.basePath
           JSString.truthyOpt JSString.orElse].
      fold opfDoc. fold manifest. rewrite Hcover, Hcp.
      repeat split; assumption || reflexivity.
    + cbn [await]. intros [= <-].
      exists zip, containerXml, rootfilePath, opfContent.
      cbn [EpubContent.metadata EpubContent.spine EpubContent.manifest
           EpubContent.navPoints EpubContent.coverPath EpubContent.coverData
           EpubContent.content EpubContent.resources EpubContent.basePath
           JSString.truthyOpt JSString.orElse].
      fold opfDoc. fold manifest. rewrite Hcover, Hcp.
      repeat split; assumption || reflexivity.
  - cbn [await]. intros [= <-].
    exists zip, containerXml, rootfilePath, opfContent.
    cbn [EpubContent.metadata EpubContent.spine EpubContent.manifest
         EpubContent.navPoints EpubContent.coverPath EpubContent.coverData
         EpubContent.content EpubContent.resources EpubContent.basePath
         JSString.truthyOpt JSString.orElse].
    fold opfDoc. fold manifest. rewrite Hcover.
    repeat split; assumption || reflexivity.
Qed.

Lemma resourceStep_keeps zip resources item k :
  is_Some (resources !! k) -> is_Some (resourceStep zip resources item !! k).
Proof.
  intros Hk. unfold resourceStep.
  destruct (JSString.startsWith _ "image/"); [|exact Hk].
  destruct (readBytes zip _) as [e|[resource|]]; [exact Hk| |exact Hk].
  assert (Hfirst : is_Some
            (<[EpubManifestItem.href item := resource]> resources !! k)).
  { rewrite lookup_insert. destruct (decide _); [eauto|exact Hk]. }
  destruct (JSString.truthy _); [|exact Hfirst].
  rewrite lookup_insert. destruct (decide _); [eauto|exact Hfirst].
Qed.

Lemma resource_loop_keeps zip items resources k :
  is_Some (resources !! k) ->
  is_Some (fold_left (resourceStep zip) items resources !! k).
Proof.
  revert resources. induction items as [|item items IH]; intros resources Hk;
    [exact Hk|].
  cbn [fold_left]. apply IH, resourceStep_keeps, Hk.
Qed.

Lemma resourceStep_stores zip resources item resource :
  isImageType (EpubManifestItem.mediaType item) = true ->
  readBytes zip (EpubManifestItem.href item) = inr (Some resource) ->
  is_Some (resourceStep zip resources item !! EpubManifestItem.href item)
  /\ (JSString.truthy (fileNameOf (EpubManifestItem.href item)) = true ->
      resourceStep zip resources item !! fileNameOf (EpubManifestItem.href item)
      = Some resource).
Proof.
  intros Himage Hread. unfold resourceStep, isImageType in *.
  rewrite Himage, Hread. fold (fileNameOf (EpubManifestItem.href item)).
  destruct (JSString.truthy (fileNameOf _)) eqn:Hname.
  - split; [|intros _; apply lookup_insert_eq].
    rewrite lookup_insert. destruct (decide _); [eauto|].
    rewrite lookup_insert_eq. eauto.
  - split; [|discriminate]. rewrite lookup_insert_eq. eauto.
Qed.

Lemma resource_loop_stores zip items resources item resource :
  In item items ->
  isImageType (EpubManifestItem.mediaType item) = true ->
  readBytes zip (EpubManifestItem.href item) = inr (Some resource) ->
  is_Some (fold_left (resourceStep zip) items resources
           !! EpubManifestItem.href item)
  /\ (JSString.truthy (fileNameOf (EpubManifestItem.href item)) = true ->
      is_Some (fold_left (resourceStep zip) items resources
               !! fileNameOf (EpubManifestItem.href item))).
Proof.
  intros Hin Himage Hread. revert resources.
  induction items as [|x items IH]; intros resources; [destruct Hin|].
  cbn [fold_left]. destruct Hin as [->|Hin]; [|apply (IH Hin)].
  destruct (resourceStep_stores zip resources item resource Himage Hread)
    as [Hhref Hname].
  split.
  - apply resource_loop_keeps, Hhref.
  - intros Ht. apply resource_loop_keeps. rewrite (Hname Ht). eauto.
Qed.

(** X17. In a returned model whose [resources] object kept its prototype
    (nothing was stored under [__proto__]), every image item that the
    manifest holds as an own property (an item whose id is not
    [__proto__]) and whose bytes the archive delivers is addressable in
    [resources] by its full path and, when the path has a file name, by
    the bare file name. *)
Theorem image_resources_present
  (loadAsync : bytes -> JSError + Archive) (parseXml : string -> Document)
  (serializeToString : Document -> string) (data : bytes)
  (model : EpubContent.t) (zip : Archive) (id : string)
  (item : EpubManifestItem.t) (resource : bytes) :
  parseEpub loadAsync parseXml serializeToString data = inr model ->
  loadAsync data = inr zip ->
  EpubContent.resources model !! "__proto__" = None ->
  id <> "__proto__" ->
  JSObject.get (EpubContent.manifest model) id = Some item ->
  isImageType (EpubManifestItem.mediaType item) = true ->
  readBytes zip (EpubManifestItem.href item) = inr (Some resource) ->
  is_Some (EpubContent.resources model !! EpubManifestItem.href item)
  /\ (JSString.truthy (fileNameOf (EpubManifestItem.href item)) = true ->
      is_Some (EpubContent.resources model
               !! fileNameOf (EpubManifestItem.href item))).
Proof.
  intros Hparse Hload _ Hown Hget Himage Hread.
  apply parseEpub_success in Hparse
    as (zip' & cx & rp & oc & Hload' & _ & _ & _ & _ & _ & _ & _ & _
        & Hman & _ & _ & _ & _ & _ & ->).
  rewrite Hload in Hload'. injection Hload' as <-.
  apply resource_loop_stores with (resource := resource);
    [|exact Himage|exact Hread].
  apply ownValues_In. exists id. split; [exact (get_In _ _ _ Hget)|exact Hown].
Qed.

Lemma resourceStep_origin zip resources item k resource :
  resourceStep zip resources item !! k = Some resource ->
  resources !! k = Some resource
  \/ (isImageType (EpubManifestItem.mediaType item) = true
      /\ readBytes zip (EpubManifestItem.href item) = inr (Some resource)
      /\ (k = EpubManifestItem.href item
          \/ k = fileNameOf (EpubManifestItem.href item))).
Proof.
  unfold resourceStep, isImageType.
  destruct (JSString.startsWith _ "image/"); [|tauto].
  destruct (readBytes zip _) as [e|[found|]]; [tauto| |tauto].
  fold (fileNameOf (EpubManifestItem.href item)).
  destruct (JSString.truthy (fileNameOf _)).
  - rewrite lookup_insert. destruct (decide _) as [<-|_].
    + intros [= ->]. tauto.
    + rewrite lookup_insert. destruct (decide _) as [<-|_]; [|tauto].
      intros [= ->]. tauto.
  - rewrite lookup_insert. destruct (decide _) as [<-|_]; [|tauto].
    intros [= ->]. tauto.
Qed.

Lemma resource_loop_origin zip items resources k resource :
  fold_left (resourceStep zip) items resources !! k = Some resource ->
  resources !! k = Some resource
  \/ exists item,
       In item items
       /\ isImageType (EpubManifestItem.mediaType item) = true
       /\ readBytes zip (EpubManifestItem.href item) = inr (Some resource)
       /\ (k = EpubManifestItem.href item
           \/ k = fileNameOf (EpubManifestItem.href item)).
Proof.
  revert resources. induction items as [|x items IH]; intros resources;
    [tauto|].
  cbn [fold_left]. intros H.
  apply IH in H as [H|(item & Hin & Hrest)].
  - apply resourceStep_origin in H as [H|H]; [tauto|].
    right. exists x. split; [left; reflexivity|exact H].
  - right. exists item. split; [right; exact Hin|exact Hrest].
Qed.

(** X18. Every entry of [resources] is the bytes that the archive holds
    for an image item of the manifest, stored under the full path of that
    item or under its bare file name: non-image items and failed reads
    leave no entry. *)
Theorem resources_come_from_images
  (loadAsync : bytes -> JSError + Archive) (parseXml : string -> Document)
  (serializeToString : Document -> string) (data : bytes)
  (model : EpubContent.t) (zip : Archive) (key : string) (resource : bytes) :
  parseEpub loadAsync parseXml serializeToString data = inr model ->
  loadAsync data = inr zip ->
  EpubContent.resources model !! key = Some resource ->
  exists id item,
    In (id, item) (EpubContent.manifest model)
    /\ isImageType (EpubManifestItem.mediaType item) = true
    /\ readBytes zip (EpubManifestItem.href item) = inr (Some resource)
    /\ (key = EpubManifestItem.href item
        \/ key = fileNameOf (EpubManifestItem.href item)).
Proof.
  intros Hparse Hload Hkey.
  apply parseEpub_success in Hparse
    as (zip' & cx & rp & oc & Hload' & _ & _ & _ & _ & _ & _ & _ & _
        & Hman & _ & _ & _ & _ & _ & Hres).
  rewrite Hload in Hload'. injection Hload' as <-.
  rewrite Hres in Hkey.
  apply resource_loop_origin in Hkey as [Hkey|(item & Hin & Hrest)].
  - rewrite lookup_empty in Hkey. discriminate.
  - apply ownValues_In in Hin as (id & Hin & _).
    exists id, item. split; [exact Hin|exact Hrest].
Qed.

Lemma content_loop_origin parseXml serializeToString zip basePath manifest
  items content k markup :
  fold_left (contentStep parseXml serializeToString zip basePath manifest)
    items content !! k = Some markup ->
  content !! k = Some markup
  \/ exists item,
       In item items /\ EpubManifestItem.id item = k
       /\ isMarkupType (EpubManifestItem.mediaType item) = true.
Proof.
  revert content. induction items as [|x items IH]; intros content; [tauto|].
  cbn [fold_left]. intros H.
  apply IH in H as [H|(item & Hin & Hrest)].
  - rewrite contentStep_entry in H.
    destruct (isMarkupType (EpubManifestItem.mediaType x)) eqn:Hx; [|tauto].
    destruct (markupEntry _ _ _ _ _ x); [|tauto].
    rewrite lookup_insert in H. destruct (decide _) as [Heq|_]; [|tauto].
    right. exists x. split; [left; reflexivity|]. tauto.
  - right. exists item. split; [right; exact Hin|exact Hrest].
Qed.

(** X19. Every key of [content] is the id of a manifest item whose media
    type denotes markup. *)
Theorem content_keys_are_markup_ids
  (loadAsync : bytes -> JSError + Archive) (parseXml : string -> Document)
  (serializeToString : Document -> string) (data : bytes)
  (model : EpubContent.t) (key markup : string) :
  parseEpub loadAsync parseXml serializeToString data = inr model ->
  EpubContent.content model !! key = Some markup ->
  exists item,
    JSObject.get (EpubContent.manifest model) key = Some item
    /\ isMarkupType (EpubManifestItem.mediaType item) = true.
Proof.
  intros Hparse Hkey.
  apply parseEpub_success in Hparse
    as (zip & cx & rp & oc & _ & _ & _ & _ & _ & _ & _ & _ & _
        & Hman & _ & _ & _ & _ & Hcontent & _).
  rewrite Hcontent in Hkey.
  apply content_loop_origin in Hkey as [Hkey|(item & Hin & Hid & Hmarkup)].
  - rewrite lookup_empty in Hkey. discriminate.
  - exists item. split; [|exact Hmarkup].
    pose proof (parseManifest_wellKeyed (parseXml oc) (directoryOf rp))
      as [Hnd Hids].
    rewrite <- Hman in Hnd, Hids.
    apply ownValues_In in Hin as (id & Hin & _).
    rewrite Forall_forall in Hids.
    pose proof (Hids _ (proj2 (list_elem_of_In _ _) Hin)) as Hkeyed.
    cbn in Hkeyed. rewrite <- Hid, Hkeyed. exact (In_get _ _ _ Hnd Hin).
Qed.

(** X20. A container descriptor without a [rootfile] element, or whose
    first [rootfile] has no or an empty [full-path], is fatal: the parse
    fails with "Invalid EPUB: Unable to find rootfile path". *)
Theorem missing_rootfile_is_fatal
  (loadAsync : bytes -> JSError + Archive) (parseXml : string -> Document)
  (serializeToString : Document -> string) (data : bytes) (zip : Archive)
  (containerXml : string) :
  loadAsync data = inr zip ->
  readString zip "META-INF/container.xml" = inr (Some containerXml) ->
  JSString.truthy containerXml = true ->
  JSString.truthyOpt (rootfileOf (parseXml containerXml)) = false ->
  parseEpub loadAsync parseXml serializeToString data
  = inl (Error "Invalid EPUB: Unable to find rootfile path").
Proof.
  intros Hload Hcont Hct Hroot. unfold parseEpub.
  rewrite Hload. cbn [await]. rewrite Hcont.
  cbn [await JSString.truthyOpt JSString.orElse]. rewrite Hct. cbn [negb].
  fold (rootfileOf (parseXml containerXml)). rewrite Hroot. reflexivity.
Qed.

(** X21. When the archive has no entry at the path that the container
    descriptor names, the parse fails with "Invalid EPUB: Missing OPF file
    at" followed by that path. *)
Theorem missing_package_document_is_fatal
  (loadAsync : bytes -> JSError + Archive) (parseXml : string -> Document)
  (serializeToString : Document -> string) (data : bytes) (zip : Archive)
  (containerXml rootfilePath : string) :
  loadAsync data = inr zip ->
  readString zip "META-INF/container.xml" = inr (Some containerXml) ->
  JSString.truthy containerXml = true ->
  rootfileOf (parseXml containerXml) = Some rootfilePath ->
  JSString.truthy rootfilePath = true ->
  zip !! rootfilePath = None ->
  parseEpub loadAsync parseXml serializeToString data
  = inl (Error ("Invalid EPUB: Missing OPF file at " +:+ rootfilePath)).
Proof.
  intros Hload Hcont Hct Hroot Hrt Hmissing. unfold parseEpub.
  rewrite Hload. cbn [await]. rewrite Hcont.
  cbn [await JSString.truthyOpt JSString.orElse]. rewrite Hct. cbn [negb].
  fold (rootfileOf (parseXml containerXml)). rewrite Hroot.
  cbn [JSString.truthyOpt JSString.orElse]. rewrite Hrt. cbn [negb].
  unfold readString at 1. rewrite Hmissing. reflexivity.
Qed.

(** X22. The parse fails for these reasons only: the archive does not
    open, one of the three "Invalid EPUB" conditions holds, or a read that
    is not guarded rejects (a text read of the container descriptor, the
    package document or the navigation document, or the read of the cover
    bytes).  The failure carries the error of that step. *)
Theorem parseEpub_failure_causes
  (loadAsync : bytes -> JSError + Archive) (parseXml : string -> Document)
  (serializeToString : Document -> string) (data : bytes) (e : JSError) :
  parseEpub loadAsync parseXml serializeToString data = inl e ->
  loadAsync data = inl e
  \/ exists zip,
       loadAsync data = inr zip
       /\ (e = Error "Invalid EPUB: Missing container.xml"
           \/ e = Error "Invalid EPUB: Unable to find rootfile path"
           \/ (exists path,
                  e = Error ("Invalid EPUB: Missing OPF file at " +:+ path))
           \/ (exists path, readString zip path = inl e)
           \/ (exists path, readBytes zip path = inl e)).
Proof.
  unfold parseEpub.
  destruct (loadAsync data) as [e0|zip] eqn:Hload.
  { intros [= ->]. left. reflexivity. }
  cbn [await]. intros H. right. exists zip. split; [reflexivity|].
  revert H.
  destruct (readString zip "META-INF/container.xml") as [e0|containerXml]
    eqn:Hcont; cbn [await].
  { intros [= ->]. eauto 6. }
  clear Hcont.
  destruct (negb (JSString.truthyOpt containerXml)).
  { intros [= <-]. tauto. }
  destruct (negb (JSString.truthyOpt _)).
  { intros [= <-]. tauto. }
  destruct (readString zip _) as [e0|opfContent] eqn:Hopf; cbn [await].
  { intros [= ->]. eauto 6. }
  clear Hopf.
  destruct (negb (JSString.truthyOpt opfContent)).
  { intros [= <-]. eauto 6. }
  match goal with
  | |- await ?nav _ = _ -> _ =>
      assert (Hnav : forall e', nav = inl e' ->
                                exists path, readString zip path = inl e');
      [|destruct nav as [e0|navPoints]]
  end.
  { intros e'. destruct (JSString.truthyOpt _); [|discriminate].
    destruct (readString zip _) as [e1|tocContent] eqn:Htoc.
    - intros [= ->]. eauto.
    - cbn [await]. destruct (JSString.truthyOpt tocContent); discriminate. }
  { cbn [await]. intros [= ->]. right. right. right. left.
    apply Hnav. reflexivity. }
  cbn [await].
  destruct (JSString.truthyOpt (findCoverPath _ _)).
  - destruct (readBytes zip _) as [e0|coverData] eqn:Hcover; cbn [await].
    + intros [= ->]. eauto 7.
    + discriminate.
  - cbn [await]. discriminate.
Qed.

(** X23. The cover bytes of a model are present only together with a
    non-empty cover path, and they are what the archive holds at that
    path. *)
Theorem coverData_from_coverPath
  (loadAsync : bytes -> JSError + Archive) (parseXml : string -> Document)
  (serializeToString : Document -> string) (data : bytes)
  (model : EpubContent.t) (zip : Archive) (coverData : bytes) :
  parseEpub loadAsync parseXml serializeToString data = inr model ->
  loadAsync data = inr zip ->
  EpubContent.coverData model = Some coverData ->
  exists coverPath file,
    EpubContent.coverPath model = Some coverPath
    /\ JSString.truthy coverPath = true
    /\ zip !! coverPath = Some file
    /\ asyncUint8Array file = inr coverData.
Proof.
  intros Hparse Hload Hdata.
  apply parseEpub_success in Hparse
    as (zip' & cx & rp & oc & Hload' & _ & _ & _ & _ & _ & _ & _ & _
        & _ & _ & _ & Hcover & _).
  rewrite Hload in Hload'. injection Hload' as <-.
  destruct (EpubContent.coverPath model) as [coverPath|];
    cbn [JSString.truthyOpt JSString.orElse] in Hcover; [|congruence].
  destruct (JSString.truthy coverPath) eqn:Hcp; [|congruence].
  rewrite Hdata in Hcover. unfold readBytes in Hcover.
  destruct (zip !! coverPath) as [file|] eqn:Hfile; [|discriminate].
  destruct (asyncUint8Array file) as [e|found] eqn:Hbytes; [discriminate|].
  injection Hcover as ->. exists coverPath, file. tauto.
Qed.

(** X24. When the spine names no navigation resource, or names an id that
    is not in the manifest, the navigation forest of the model is
    empty. *)
Theorem no_navigation_resource_no_forest
  (loadAsync : bytes -> JSError + Archive) (parseXml : string -> Document)
  (serializeToString : Document -> string) (data : bytes)
  (model : EpubContent.t) :
  parseEpub loadAsync parseXml serializeToString data = inr model ->
  JSObject.get (EpubContent.manifest model)
    (EpubSpine.toc (EpubContent.spine model)) = None ->
  EpubContent.navPoints model = [].
Proof.
  intros Hparse Hnone.
  apply parseEpub_success in Hparse
    as (zip & cx & rp & oc & _ & _ & _ & _ & _ & _ & _ & _ & _
        & _ & _ & _ & _ & Hnav & _).
  exact (Hnav Hnone).
Qed.

(** X17 on the cover image of the sample archive. *)
Lemma image_resources_present_witness :
  exists model,
    parseEpub imageLoadAsync imageParseXml sampleSerialize [] = inr model
    /\ is_Some (EpubContent.resources model !! "images/front.jpg")
    /\ is_Some (EpubContent.resources model !! "front.jpg").
Proof.
  eexists. split; [reflexivity|].
  destruct (image_resources_present imageLoadAsync imageParseXml
              sampleSerialize [] _ imageArchive "img1"
              (EpubManifestItem.mk "img1" "images/front.jpg" "image/jpeg")
              [Byte.xff; Byte.xd8]
              eq_refl eq_refl eq_refl ltac:(discriminate)
              eq_refl eq_refl eq_refl) as [Hpath Hname].
  split; [exact Hpath|exact (Hname eq_refl)].
Defined.

(** X18 on the entry [front.jpg] of the sample archive. *)
Lemma resources_come_from_images_witness :
  exists id item,
    In (id, item) (parseManifest opfCoverProperty "")
    /\ isImageType (EpubManifestItem.mediaType item) = true
    /\ readBytes imageArchive (EpubManifestItem.href item)
       = inr (Some [Byte.xff; Byte.xd8])
    /\ ("front.jpg" = EpubManifestItem.href item
        \/ "front.jpg" = fileNameOf (EpubManifestItem.href item)).
Proof.
  exact (resources_come_from_images imageLoadAsync imageParseXml
           sampleSerialize [] _ imageArchive "front.jpg" [Byte.xff; Byte.xd8]
           eq_refl eq_refl eq_refl).
Defined.

(** X19 on the chapter of the sample archive. *)
Lemma content_keys_are_markup_ids_witness :
  exists item,
    JSObject.get (parseManifest opfCoverProperty "") "ch1" = Some item
    /\ isMarkupType (EpubManifestItem.mediaType item) = true.
Proof.
  exact (content_keys_are_markup_ids imageLoadAsync imageParseXml
           sampleSerialize [] _ "ch1" "<html/>" eq_refl eq_refl).
Defined.

(** X20 with a container descriptor in which no element is found. *)
Lemma missing_rootfile_is_fatal_witness :
  parseEpub sampleLoadAsync blankParseXml sampleSerialize []
  = inl (Error "Invalid EPUB: Unable to find rootfile path").
Proof.
  apply (missing_rootfile_is_fatal sampleLoadAsync blankParseXml
           sampleSerialize [] sampleArchive "container"); reflexivity.
Defined.

(** X21 on an archive that holds the container descriptor only. *)
Lemma missing_package_document_is_fatal_witness :
  parseEpub containerOnlyLoadAsync sampleParseXml sampleSerialize []
  = inl (Error "Invalid EPUB: Missing OPF file at content.opf").
Proof.
  apply (missing_package_document_is_fatal containerOnlyLoadAsync
           sampleParseXml sampleSerialize []
           (<["META-INF/container.xml" :=
                mkZipObject (inr "container") (inr [])]> ∅)
           "container" "content.opf"); reflexivity.
Defined.

(** X22 on the archive without entries. *)
Lemma parseEpub_failure_causes_witness :
  emptyLoadAsync [] = inl (Error "Invalid EPUB: Missing container.xml")
  \/ exists zip,
       emptyLoadAsync [] = inr zip
       /\ (Error "Invalid EPUB: Missing container.xml"
           = Error "Invalid EPUB: Missing container.xml"
           \/ Error "Invalid EPUB: Missing container.xml"
              = Error "Invalid EPUB: Unable to find rootfile path"
           \/ (exists path,
                  Error "Invalid EPUB: Missing container.xml"
                  = Error ("Invalid EPUB: Missing OPF file at " +:+ path))
           \/ (exists path,
                  readString zip path
                  = inl (Error "Invalid EPUB: Missing container.xml"))
           \/ (exists path,
                  readBytes zip path
                  = inl (Error "Invalid EPUB: Missing container.xml"))).
Proof.
  apply (parseEpub_failure_causes emptyLoadAsync sampleParseXml
           sampleSerialize []).
  reflexivity.
Defined.

(** X23 on the cover of the sample archive. *)
Lemma coverData_from_coverPath_witness :
  exists coverPath file,
    findCoverPath opfCoverProperty (parseManifest opfCoverProperty "")
    = Some coverPath
    /\ JSString.truthy coverPath = true
    /\ imageArchive !! coverPath = Some file
    /\ asyncUint8Array file = inr [Byte.xff; Byte.xd8].
Proof.
  exact (coverData_from_coverPath imageLoadAsync imageParseXml
           sampleSerialize [] _ imageArchive [Byte.xff; Byte.xd8]
           eq_refl eq_refl eq_refl).
Defined.

(** X24 on the sample archive, whose spine names no navigation
    resource. *)
Lemma no_navigation_resource_no_forest_witness :
  exists model,
    parseEpub imageLoadAsync imageParseXml sampleSerialize [] = inr model
    /\ EpubContent.navPoints model = [].
Proof.
  eexists. split; [reflexivity|].
  exact (no_navigation_resource_no_forest imageLoadAsync imageParseXml
           sampleSerialize [] _ eq_refl eq_refl).
Defined.

(** ** The callers in the reader view *)

Lemma ownEntries_permutation {V : Type} (o : JSObject.t V) :
  Permutation (ownEntries o) (JSObject.enumerable o).
Proof.
  unfold ownEntries. generalize (JSObject.enumerable o). clear o. intros o.
  etransitivity;
    [apply Permutation_app_tail, Permutation_map, arraySort_permutation|].
  induction o as [|[k v] o IH]; [reflexivity|].
  cbn [List.flat_map List.filter fst].
  destruct (JSObject.arrayIndex k).
  - cbn [app List.map snd]. constructor. exact IH.
  - cbn [app]. rewrite <- Permutation_middle. constructor. exact IH.
Qed.

Lemma forOf_guard_Some {A R : Type} (p : A -> bool) (g : A -> R) l r :
  forOf (fun x => if p x then Some (g x) else None) l = Some r ->
  exists x, In x l /\ p x = true /\ g x = r.
Proof.
  rewrite forOf_find. destruct (List.find p l) as [x|] eqn:Hfind;
    [|discriminate].
  intros [= <-]. apply find_some in Hfind. exists x. tauto.
Qed.

Lemma forOf_guard_None {A R : Type} (p : A -> bool) (g : A -> R) l :
  forOf (fun x => if p x then Some (g x) else None) l = None ->
  forall x, In x l -> p x = false.
Proof.
  rewrite forOf_find. destruct (List.find p l) as [x|] eqn:Hfind;
    [discriminate|].
  intros _ x Hin. exact (find_none _ _ Hfind x Hin).
Qed.

(** X25. The lookup of a manifest item by href returns the id of an own
    property of the manifest whose href ends with the given one, and
    returns nothing only when no own property of the manifest has such an
    href (or no book is loaded).  An item that was installed as prototype
    is not among the entries that [Object.entries] enumerates. *)
Theorem findManifestItemForHref_finds (content : EpubContent.t)
  (href : string) :
  match findManifestItemForHref (Some content) href with
  | Some id =>
      exists item,
        In (id, item) (JSObject.enumerable (EpubContent.manifest content))
        /\ endsWith (EpubManifestItem.href item) href = true
  | None =>
      forall id item,
        In (id, item) (JSObject.enumerable (EpubContent.manifest content)) ->
        endsWith (EpubManifestItem.href item) href = false
  end.
Proof.
  unfold findManifestItemForHref.
  destruct (forOf _ _) as [id|] eqn:Hfor.
  - apply forOf_guard_Some in Hfor as ([id' item] & Hin & Hends & Hid).
    cbn in Hends, Hid. subst id'. exists item. split; [|exact Hends].
    eapply Permutation_in; [apply ownEntries_permutation|exact Hin].
  - intros id item Hin.
    apply (forOf_guard_None _ _ _ Hfor (id, item)).
    eapply Permutation_in; [symmetry; apply ownEntries_permutation|exact Hin].
Qed.

Lemma endsWith_empty s : endsWith s "" = true.
Proof.
  induction s as [|c s IH]; [reflexivity|].
  cbn [endsWith]. rewrite IH. apply orb_true_r.
Qed.

(** X26. For the empty href, which a navigation point without a content
    [src] carries, the lookup returns the first id of the manifest in
    enumeration order. *)
Theorem findManifestItemForHref_empty (content : EpubContent.t) :
  findManifestItemForHref (Some content) ""
  = fst <$> head (ownEntries (EpubContent.manifest content)).
Proof.
  unfold findManifestItemForHref.
  destruct (ownEntries (EpubContent.manifest content)) as [|entry rest];
    [reflexivity|].
  cbn [forOf]. rewrite endsWith_empty. reflexivity.
Qed.

(** X27. Whatever the path, the media type that the reader view picks for
    an image is one that [isImageType] accepts. *)
Theorem getImageMimeType_is_image (path : string) :
  isImageType (getImageMimeType path) = true.
Proof.
  unfold getImageMimeType.
  destruct (JSString.toLowerCase <$> last (JSString.split "." path))
    as [ext|]; [|reflexivity].
  destruct (_ || _); [reflexivity|].
  repeat (destruct (String.eqb ext _); [reflexivity|]). reflexivity.
Qed.

(** X25 on the manifest of the cover example and a bare file name. *)
Lemma findManifestItemForHref_finds_witness :
  exists item,
    In ("img1", item) (JSObject.enumerable (parseManifest opfCoverProperty ""))
    /\ endsWith (EpubManifestItem.href item) "front.jpg" = true.
Proof.
  exact (findManifestItemForHref_finds
           (EpubContent.mk EpubMetadata.none (EpubSpine.mk [] "")
              (parseManifest opfCoverProperty "") [] None None ∅ ∅ "")
           "front.jpg").
Defined.
